(** * trpc-webrtc: the data-channel link (caller) and handler (responder)

    A shallow embedding of [src/data-channel-handler.ts] (the responder:
    [parseMessage], [handleRequest], the [message] listener) and of
    [src/data-channel-link.ts] (the caller: [createDataChannelClient] with
    its [request], cancellation function, [close], batching [dispatch] and
    the [message] / [close] listeners).

    Conventions used throughout.
    - Every handler is a function from the state it closes over to the new
      state and the list of externally visible effects it performed, in
      program order (frames sent, transports closed, callbacks invoked).
    - Collaborators outside the repository (the transport, the router, the
      transformer, the caller's observer) are not executed: what they are
      asked to do is recorded as an effect, and what they answer is an
      argument of the handler.  An observer callback is taken not to call
      back into the client while it runs.
    - JavaScript numbers are modelled by the integers plus [NaN]; no
      statement below depends on arithmetic.  An integer stands for a
      JavaScript number, and its string is its decimal digits, within the
      safe integers ([isSafeInteger]); statements that depend on the
      string of a number, or on two keys being the same string, are made
      for safe integers. *)

From stdpp Require Import base option list strings pretty gmap fin_maps.
From Stdlib Require Import ZArith.

Set Warnings "-register-all".
Open Scope string_scope.
Open Scope list_scope.

(** ** JavaScript values *)

Inductive number : Type :=
| NaN
| Num (z : Z).

(** A value of TypeScript type [unknown], as [JSON.parse] or a caller may
    hand it over.  [JUndefined] is what reading a missing property gives.
    The fields of an object carry distinct keys. *)
Inductive jsval : Type :=
| JUndefined
| JNull
| JBool (b : bool)
| JNumber (n : number)
| JString (s : string)
| JArray (elems : list jsval)
| JObject (fields : list (string * jsval)).

Inductive ProcedureType : Type :=
| query
| mutation
| subscription.

#[global] Instance number_eq_dec : EqDecision number.
Proof. solve_decision. Defined.

#[global] Instance ProcedureType_eq_dec : EqDecision ProcedureType.
Proof. solve_decision. Defined.

(** [typeof v] *)
Definition typeof (v : jsval) : string :=
  match v with
  | JUndefined => "undefined"
  | JNull => "object"
  | JBool _ => "boolean"
  | JNumber _ => "number"
  | JString _ => "string"
  | JArray _ => "object"
  | JObject _ => "object"
  end.

(** [Array.isArray(v)] *)
Definition isArray (v : jsval) : bool :=
  match v with
  | JArray _ => true
  | _ => false
  end.

(** [isNaN(n)] for a number. *)
Definition isNaN (n : number) : bool :=
  match n with
  | NaN => true
  | Num _ => false
  end.

(** [Number.MAX_SAFE_INTEGER], 2^53 - 1. *)
Definition MAX_SAFE_INTEGER : Z := 9007199254740991.

(** [Number.isSafeInteger(z)] for an integer [z].  Every safe integer is a
    JavaScript number and [String] prints it by its decimal digits.
    Beyond this range not every integer is a number, and [String] prints
    the shortest digits that read back as the same number, with an
    exponent from 1e21 on ([String(1e21)] is ["1e+21"]). *)
Definition isSafeInteger (z : Z) : bool :=
  (- MAX_SAFE_INTEGER <=? z)%Z && (z <=? MAX_SAFE_INTEGER)%Z.

(** Truthiness, the [!v] test negated. *)
Definition truthy (v : jsval) : bool :=
  match v with
  | JUndefined => false
  | JNull => false
  | JBool b => b
  | JNumber NaN => false
  | JNumber (Num z) => negb (z =? 0)%Z
  | JString s => negb (String.eqb s "")
  | JArray _ => true
  | JObject _ => true
  end.

(** [v === "lit"] for a string literal. *)
Definition is_string (v : jsval) (lit : string) : bool :=
  match v with
  | JString s => String.eqb s lit
  | _ => false
  end.

(** [v === null] *)
Definition is_null (v : jsval) : bool :=
  match v with
  | JNull => true
  | _ => false
  end.

(** Property lookup in the field list of an object. *)
Fixpoint field (k : string) (fs : list (string * jsval)) : jsval :=
  match fs with
  | [] => JUndefined
  | (k', v) :: fs' => if String.eqb k' k then v else field k fs'
  end.

(** [obj.k], as destructuring [const { k } = obj] reads it. *)
Definition prop (obj : jsval) (k : string) : jsval :=
  match obj with
  | JObject fs => field k fs
  | _ => JUndefined
  end.

(** [SameValueZero], the key comparison of a JavaScript [Map].  Primitives
    compare by value ([NaN] equals itself); arrays and objects compare by
    reference, and a key freshly built by [JSON.parse] is a new reference,
    so it equals no key stored before. *)
Definition same_value_zero (a b : jsval) : bool :=
  match a, b with
  | JUndefined, JUndefined => true
  | JNull, JNull => true
  | JBool x, JBool y => Bool.eqb x y
  | JNumber x, JNumber y => bool_decide (x = y)
  | JString x, JString y => String.eqb x y
  | _, _ => false
  end.

(** [String(v)], as a template literal converts an interpolated value.  A
    number is printed by its decimal digits, which is what [String] does
    for the safe integers; [exact_string] below tells the values for which
    this definition is [String]. *)
Fixpoint to_string (v : jsval) : string :=
  match v with
  | JUndefined => "undefined"
  | JNull => "null"
  | JBool true => "true"
  | JBool false => "false"
  | JNumber NaN => "NaN"
  | JNumber (Num z) => pretty z
  | JString s => s
  | JArray l =>
      (fix join (l : list jsval) : string :=
         match l with
         | [] => ""
         | x :: l' =>
             let sx := match x with
                       | JUndefined | JNull => ""
                       | _ => to_string x
                       end in
             match l' with
             | [] => sx
             | _ :: _ => sx +:+ "," +:+ join l'
             end
         end) l
  | JObject _ => "[object Object]"
  end.

(** The values that [to_string] converts as [String] does: those in which
    every number is [NaN] or a safe integer. *)
Fixpoint exact_string (v : jsval) : bool :=
  match v with
  | JNumber (Num z) => isSafeInteger z
  | JArray l => forallb exact_string l
  | _ => true
  end.

(** [readyState] of an [RTCDataChannel]. *)
Inductive ReadyState : Type :=
| rs_connecting
| rs_open
| rs_closing
| rs_closed.

#[global] Instance ReadyState_eq_dec : EqDecision ReadyState.
Proof. solve_decision. Defined.

(** ** Thrown errors *)

(** The outcome of code that may [throw]: the error monad.  [Throw e]
    carries the message of the thrown [Error]. *)
Inductive Result (A : Type) : Type :=
| Ok (a : A)
| Throw (e : string).

Arguments Ok {A} a.
Arguments Throw {A} e.

#[global] Instance Result_ret : MRet Result := fun A a => Ok a.

#[global] Instance Result_bind : MBind Result :=
  fun A B k r =>
    match r with
    | Ok a => k a
    | Throw e => Throw e
    end.

(** [l.map(f)] for an [f] that may throw: elements are visited in order
    and the first exception ends the traversal. *)
Fixpoint map_throwing {A B : Type} (f : A -> Result B) (l : list A)
  : Result (list B) :=
  match l with
  | [] => Ok []
  | x :: l' =>
      y ← f x;
      ys ← map_throwing f l';
      mret (y :: ys)
  end.

(** * The responder: [data-channel-handler.ts] *)

Module Handler.

(** [TRPCClientOutgoingMessage], what [parseMessage] returns.  The [id] is
    declared [number | string | null]; it is kept as the raw value because
    that is what the code stores. *)
Inductive TRPCClientOutgoingMessage : Type :=
| StopMessage (id jsonrpc : jsval)
| RequestMessage (id jsonrpc : jsval) (method : ProcedureType)
    (input : jsval) (path : string).

Definition msg_id (m : TRPCClientOutgoingMessage) : jsval :=
  match m with
  | StopMessage id _ => id
  | RequestMessage id _ _ _ _ => id
  end.

Definition assertIsObject (obj : jsval) : Result unit :=
  if negb (String.eqb (typeof obj) "object") || isArray obj || negb (truthy obj)
  then Throw "Not an object"
  else Ok ().

Definition assertIsProcedureType (obj : jsval) : Result ProcedureType :=
  if negb (is_string obj "query") && negb (is_string obj "subscription")
     && negb (is_string obj "mutation")
  then Throw "Invalid procedure type"
  else if is_string obj "query" then Ok query
  else if is_string obj "subscription" then Ok subscription
  else Ok mutation.

(** [isNaN(obj)] is reached only where [typeof obj === "number"] holds,
    the conjunction being evaluated from the left. *)
Definition assertIsRequestId (obj : jsval) : Result unit :=
  if negb (is_null obj)
     && String.eqb (typeof obj) "number"
     && match obj with
        | JNumber n => isNaN n
        | _ => false
        end
     && negb (String.eqb (typeof obj) "string")
  then Throw "Invalid request id"
  else Ok ().

Definition assertIsString (obj : jsval) : Result string :=
  match obj with
  | JString s => Ok s
  | _ => Throw "Invalid string"
  end.

Definition assertIsJSONRPC2OrUndefined (obj : jsval) : Result unit :=
  if negb (String.eqb (typeof obj) "undefined") && negb (is_string obj "2.0")
  then Throw "Must be JSONRPC 2.0"
  else Ok ().

Section Codec.

(** [transformer.input.deserialize], part of the router's configuration. *)
Variable deserialize : jsval -> Result jsval.

Definition parseMessage (obj : jsval) : Result TRPCClientOutgoingMessage :=
  assertIsObject obj;;
  let method := prop obj "method" in
  let params := prop obj "params" in
  let id := prop obj "id" in
  let jsonrpc := prop obj "jsonrpc" in
  assertIsRequestId id;;
  assertIsJSONRPC2OrUndefined jsonrpc;;
  if is_string method "subscription.stop" then
    mret (StopMessage id jsonrpc)
  else
    method ← assertIsProcedureType method;
    assertIsObject params;;
    let rawInput := prop params "input" in
    let path := prop params "path" in
    path ← assertIsString path;
    input ← deserialize rawInput;
    mret (RequestMessage id jsonrpc method input path).

End Codec.

(** *** The subscription registry and the dispatch engine *)

(** An [Unsubscribable]: the handle [observable.subscribe] returns. *)
Definition Unsubscribable : Type := nat.

(** A [TRPCError]: its code, its message when one was given, and the
    message of the [Error] it wraps as [cause], if any. *)
Record TRPCError : Type := mkTRPCError {
  code : string;
  message : option string;
  cause : option string
}.

(** What an observable does to its observer. *)
Inductive StreamEvent : Type :=
| EmitNext (data : jsval)
| EmitError (err : TRPCError)
| EmitComplete.

(** An observable returned by a subscription procedure: the observer calls
    it makes while [subscribe] runs, and the handle [subscribe] returns. *)
Record Observable : Type := mkObservable {
  emitted : list StreamEvent;
  handle : Unsubscribable
}.

(** What [callProcedure] resolves to. *)
Inductive ProcedureValue : Type :=
| Value (v : jsval)
| Stream (observable : Observable).

(** How the awaited part of [handleRequest] ends: [await ctxPromise] and
    [await callProcedure(...)] both resolve, or one of them rejects with a
    cause already converted by [getTRPCErrorFromUnknown]. *)
Inductive ProcedureOutcome : Type :=
| Resolved (result : ProcedureValue)
| Rejected (error : TRPCError).

Inductive TRPCResult : Type :=
| ResultData (data : ProcedureValue)
| ResultStarted
| ResultStopped.

(** The argument of [router.getErrorShape]; [None] for the type stands for
    ["unknown"], [None] for the path for [undefined]. *)
Record ErrorShape : Type := mkErrorShape {
  shape_error : TRPCError;
  shape_type : option ProcedureType;
  shape_path : option string;
  shape_input : jsval
}.

Inductive TRPCResponseMessage : Type :=
| ResultResponse (id jsonrpc : jsval) (result : TRPCResult)
| ErrorResponse (id jsonrpc : jsval) (error : ErrorShape).

(** What the engine does to its collaborators: [dataChannel.send] of a
    response, [unsubscribe] of a subscription, and the optional call
    [opts.onError?.(...)], which reaches a collaborator only if one was
    configured. *)
Inductive Effect : Type :=
| Send (m : TRPCResponseMessage)
| Unsubscribe (sub : Unsubscribable)
| OnError (shape : ErrorShape).

(** [clientSubscriptions], a JavaScript [Map] in insertion order. *)
Definition Registry : Type := list (jsval * Unsubscribable).

Fixpoint Map_get (id : jsval) (m : Registry) : option Unsubscribable :=
  match m with
  | [] => None
  | (k, v) :: m' => if same_value_zero k id then Some v else Map_get id m'
  end.

Definition Map_has (id : jsval) (m : Registry) : bool :=
  match Map_get id m with
  | Some _ => true
  | None => false
  end.

Fixpoint Map_set (id : jsval) (sub : Unsubscribable) (m : Registry) : Registry :=
  match m with
  | [] => [(id, sub)]
  | (k, v) :: m' =>
      if same_value_zero k id then (k, sub) :: m'
      else (k, v) :: Map_set id sub m'
  end.

Fixpoint Map_delete (id : jsval) (m : Registry) : Registry :=
  match m with
  | [] => []
  | (k, v) :: m' =>
      if same_value_zero k id then m' else (k, v) :: Map_delete id m'
  end.

Definition Map_values (m : Registry) : list Unsubscribable := snd <$> m.

(** [respond]: the response is handed to [transformTRPCResponse] and sent. *)
Definition respond (untransformedJSON : TRPCResponseMessage) : list Effect :=
  [Send untransformedJSON].

Definition stopSubscription (subscription : Unsubscribable) (id jsonrpc : jsval)
  : list Effect :=
  [Unsubscribe subscription] ++ respond (ResultResponse id jsonrpc ResultStopped).

(** A request whose [handleRequest] is suspended at its [await]s. *)
Record ProcedureCall : Type := mkCall {
  call_id : jsval;
  call_jsonrpc : jsval;
  call_type : ProcedureType;
  call_path : string;
  call_input : jsval
}.

(** How far a call of the async [handleRequest] gets before it yields. *)
Inductive Progress : Type :=
| Rejects (error : TRPCError)
| Returns (subs : Registry) (effects : list Effect)
| Awaits (call : ProcedureCall).

(** [handleRequest] up to its first [await]. *)
Definition handleRequest (msg : TRPCClientOutgoingMessage) (subs : Registry)
  : Progress :=
  if is_null (msg_id msg) then
    Rejects (mkTRPCError "BAD_REQUEST" (Some "`id` is required") None)
  else
    match msg with
    | StopMessage id jsonrpc =>
        let effects :=
          match Map_get id subs with
          | Some sub => stopSubscription sub id jsonrpc
          | None => []
          end in
        Returns (Map_delete id subs) effects
    | RequestMessage id jsonrpc type input path =>
        Awaits (mkCall id jsonrpc type path input)
    end.

(** The three reactions of the observer passed to [observable.subscribe];
    for an error, [opts.onError?.(...)] and then the error response. *)
Definition observer (call : ProcedureCall) (ev : StreamEvent) : list Effect :=
  let id := call_id call in
  let jsonrpc := call_jsonrpc call in
  match ev with
  | EmitNext data => respond (ResultResponse id jsonrpc (ResultData (Value data)))
  | EmitError err =>
      let shape := mkErrorShape err (Some (call_type call))
                     (Some (call_path call)) (call_input call) in
      [OnError shape] ++ respond (ErrorResponse id jsonrpc shape)
  | EmitComplete => respond (ResultResponse id jsonrpc ResultStopped)
  end.

(** [observable.subscribe(observer)] *)
Definition subscribe (observable : Observable) (call : ProcedureCall)
  : list Effect * Unsubscribable :=
  (flat_map (observer call) (emitted observable), handle observable).

(** The body of the [try] block of [handleRequest] after the awaits: the
    registry, the effects so far, and the error thrown, if any. *)
Definition try_block (call : ProcedureCall) (outcome : ProcedureOutcome)
    (readyState : ReadyState) (subs : Registry)
  : Registry * list Effect * option TRPCError :=
  let id := call_id call in
  let jsonrpc := call_jsonrpc call in
  match outcome with
  | Rejected error => (subs, [], Some error)
  | Resolved result =>
      if bool_decide (call_type call = subscription) then
        match result with
        | Value _ =>
            (subs, [],
             Some (mkTRPCError "INTERNAL_SERVER_ERROR"
                     (Some ("Subscription " +:+ call_path call
                            +:+ " did not return an observable")) None))
        | Stream observable =>
            let '(emits, sub) := subscribe observable call in
            if negb (bool_decide (readyState = rs_open)) then
              (subs, emits ++ [Unsubscribe sub], None)
            else if Map_has id subs then
              (subs, emits ++ stopSubscription sub id jsonrpc,
               Some (mkTRPCError "BAD_REQUEST"
                       (Some ("Duplicate id " +:+ to_string id)) None))
            else
              (Map_set id sub subs,
               emits ++ respond (ResultResponse id jsonrpc ResultStarted),
               None)
        end
      else
        (subs, respond (ResultResponse id jsonrpc (ResultData result)), None)
  end.

(** [handleRequest] from its awaits on: the [try] block, and the [catch]
    that reports whatever it threw. *)
Definition handleRequest_resume (call : ProcedureCall) (outcome : ProcedureOutcome)
    (readyState : ReadyState) (subs : Registry) : Registry * list Effect :=
  let '(subs', effects, thrown) := try_block call outcome readyState subs in
  match thrown with
  | None => (subs', effects)
  | Some error =>
      let shape := mkErrorShape error (Some (call_type call))
                     (Some (call_path call)) (call_input call) in
      (subs', effects ++ [OnError shape]
                ++ respond (ErrorResponse (call_id call) (call_jsonrpc call) shape))
  end.

(** [msgs.map(handleRequest)]: every call runs to its first [await] before
    the next one starts.  The result collects the registry, the effects,
    the suspended calls, and the first rejection. *)
Fixpoint handleRequests (msgs : list TRPCClientOutgoingMessage) (subs : Registry)
  : Registry * list Effect * list ProcedureCall * option TRPCError :=
  match msgs with
  | [] => (subs, [], [], None)
  | msg :: msgs' =>
      match handleRequest msg subs with
      | Rejects error =>
          let '(subs', effects, calls, _) := handleRequests msgs' subs in
          (subs', effects, calls, Some error)
      | Returns subs1 effects1 =>
          let '(subs', effects, calls, rejected) := handleRequests msgs' subs1 in
          (subs', effects1 ++ effects, calls, rejected)
      | Awaits call =>
          let '(subs', effects, calls, rejected) := handleRequests msgs' subs in
          (subs', effects, call :: calls, rejected)
      end
  end.

(** The unsolicited response of the [catch] of the [message] listener. *)
Definition parse_error_response (cause : option string) : TRPCResponseMessage :=
  ErrorResponse JNull JUndefined
    (mkErrorShape (mkTRPCError "PARSE_ERROR" None cause) None None JUndefined).

(** [Array.isArray(msgJSON) ? msgJSON : [msgJSON]] *)
Definition frame_members (msgJSON : jsval) : list jsval :=
  if isArray msgJSON then
    match msgJSON with
    | JArray elems => elems
    | _ => []
    end
  else [msgJSON].

Section Engine.

Variable deserialize : jsval -> Result jsval.

(** The [message] listener.  [msgJSON] is the outcome of
    [JSON.parse(message.data.toString())].  The result is the registry, the
    effects of the synchronous part followed by the report of a rejection,
    and the calls left suspended, each to be resumed by
    [handleRequest_resume]. *)
Definition onMessage (msgJSON : Result jsval) (subs : Registry)
  : Registry * list Effect * list ProcedureCall :=
  let parsed :=
    msgJSON ← msgJSON;
    let msgs := frame_members msgJSON in
    map_throwing (parseMessage deserialize) msgs in
  match parsed with
  | Throw cause => (subs, respond (parse_error_response (Some cause)), [])
  | Ok msgs =>
      let '(subs', effects, calls, rejected) := handleRequests msgs subs in
      match rejected with
      | None => (subs', effects, calls)
      | Some error =>
          (subs', effects ++ respond (parse_error_response (message error)), calls)
      end
  end.

End Engine.

(** The [close] listener: every registered subscription is unsubscribed and
    the registry cleared. *)
Definition onClose (subs : Registry) : Registry * list Effect :=
  ([], Unsubscribe <$> Map_values subs).

(** The [id] field of a response. *)
Definition response_id (m : TRPCResponseMessage) : jsval :=
  match m with
  | ResultResponse id _ _ => id
  | ErrorResponse id _ _ => id
  end.

(** What a JavaScript [Map] guarantees of its keys: no two of them are the
    same under [SameValueZero]. *)
Fixpoint Map_keys_distinct (m : Registry) : Prop :=
  match m with
  | [] => True
  | (k, _) :: m' => Map_get k m' = None ∧ Map_keys_distinct m'
  end.

(** A message that carries an id, the test [id === null] failing. *)
Definition has_id (msg : TRPCClientOutgoingMessage) : bool :=
  negb (is_null (msg_id msg)).

End Handler.

(** * The caller: [data-channel-link.ts] *)

Module Link.

(** A request id, [number | string].  Numeric ids are the integers the
    tRPC client counts up. *)
Inductive RequestId : Type :=
| IdNumber (n : Z)
| IdString (s : string).

#[global] Instance RequestId_eq_dec : EqDecision RequestId.
Proof. solve_decision. Defined.

(** The property key under which [pendingRequests[id]] files an id: a
    number is converted to its string, so [1] and ["1"] name the same
    entry.  The string is the decimal digits, which is the key JavaScript
    uses for the safe integers ([exact_key]). *)
Definition property_key (id : RequestId) : string :=
  match id with
  | IdNumber n => pretty n
  | IdString s => s
  end.

(** The ids whose property key [property_key] gives as JavaScript does: the
    strings and the safe integers. *)
Definition exact_key (id : RequestId) : bool :=
  match id with
  | IdNumber n => isSafeInteger n
  | IdString _ => true
  end.

(** The identity of an [RTCDataChannel] object ([===] on channels). *)
Definition Conn : Type := nat.

(** The identity of the observer passed to [request] as [callbacks]. *)
Definition TCallbacks : Type := nat.

(** [state] of the client. *)
Inductive State : Type :=
| st_open
| st_connecting
| st_closed.

#[global] Instance State_eq_dec : EqDecision State.
Proof. solve_decision. Defined.

Record Operation : Type := mkOperation {
  op_type : ProcedureType;
  op_input : jsval;
  op_path : string;
  op_id : RequestId
}.

(** [TRPCClientOutgoingMessage]: a request envelope
    [{ id, method, params: { input, path } }] or the cancel envelope
    [{ id, method: "subscription.stop" }]. *)
Inductive TRPCClientOutgoingMessage : Type :=
| RequestEnvelope (id : RequestId) (method : ProcedureType)
    (input : jsval) (path : string)
| StopEnvelope (id : RequestId).

Definition msg_id (msg : TRPCClientOutgoingMessage) : RequestId :=
  match msg with
  | RequestEnvelope id _ _ _ => id
  | StopEnvelope id => id
  end.

Inductive TRPCResult : Type :=
| ResultData (data : jsval)
| ResultStarted
| ResultStopped.

(** The part of a response besides its id: [result] or [error]. *)
Inductive ResponseBody : Type :=
| WithResult (result : TRPCResult)
| WithError (error : jsval).

(** [TRPCResponseMessage]; [None] is the id [null]. *)
Record TRPCResponseMessage : Type := mkResponse {
  resp_id : option RequestId;
  resp_body : ResponseBody
}.

(** [TRPCClientIncomingMessage]: an object with a [method] field is a
    request of the responder, any other is a response. *)
Inductive TRPCClientIncomingMessage : Type :=
| IncomingRequest (method : string)
| IncomingResponse (data : TRPCResponseMessage).

(** [TRequest], an entry of [pendingRequests]. *)
Record TRequest : Type := mkRequest {
  dataChannel : Conn;
  type : ProcedureType;
  callbacks : TCallbacks;
  op : Operation
}.

(** The variables [createDataChannelClient] closes over.  [dispatchTimer]
    is [true] while a timer handle is stored, [false] for [null]. *)
Record Client : Type := mkClient {
  opts_dataChannel : Conn;
  outgoing : list TRPCClientOutgoingMessage;
  pendingRequests : gmap string TRequest;
  dispatchTimer : bool;
  state : State;
  activeConnection : Conn
}.

(** A frame handed to [send]: [JSON.stringify] of one envelope or of the
    array of envelopes. *)
Inductive Frame : Type :=
| ObjectFrame (msg : TRPCClientOutgoingMessage)
| ArrayFrame (msgs : list TRPCClientOutgoingMessage).

(** What the client does to its collaborators. *)
Inductive Effect : Type :=
| SetTimeout
| AddOpenListener (conn : Conn)
| Send (conn : Conn) (frame : Frame)
| Close (conn : Conn)
| CallNext (cb : TCallbacks) (data : TRPCResponseMessage)
| CallError (cb : TCallbacks) (message : string)
| CallComplete (cb : TCallbacks).

Definition with_outgoing (l : list TRPCClientOutgoingMessage) (c : Client) : Client :=
  mkClient (opts_dataChannel c) l (pendingRequests c) (dispatchTimer c)
    (state c) (activeConnection c).

Definition with_pendingRequests (m : gmap string TRequest) (c : Client) : Client :=
  mkClient (opts_dataChannel c) (outgoing c) m (dispatchTimer c)
    (state c) (activeConnection c).

Definition with_dispatchTimer (b : bool) (c : Client) : Client :=
  mkClient (opts_dataChannel c) (outgoing c) (pendingRequests c) b
    (state c) (activeConnection c).

Definition with_state (s : State) (c : Client) : Client :=
  mkClient (opts_dataChannel c) (outgoing c) (pendingRequests c)
    (dispatchTimer c) s (activeConnection c).

(** [dispatch]: arm the flush timer unless the client is not open or a
    timer is already armed. *)
Definition dispatch (c : Client) : Client * list Effect :=
  if negb (bool_decide (state c = st_open)) || dispatchTimer c then (c, [])
  else (with_dispatchTimer true c, [SetTimeout]).

(** The callback [dispatch] hands to [setTimeout]. *)
Definition dispatch_timeout (readyState : Conn -> ReadyState) (c : Client)
  : Client * list Effect :=
  let c := with_dispatchTimer false c in
  if negb (bool_decide (readyState (activeConnection c) = rs_open)) then (c, [])
  else
    let frame :=
      match (length (outgoing c) =? 1)%nat, last (outgoing c) with
      | true, Some msg => ObjectFrame msg
      | _, _ => ArrayFrame (outgoing c)
      end in
    (with_outgoing [] c, [Send (activeConnection c) frame]).

(** [Object.values(pendingRequests).some((p) => p.dataChannel === conn)] *)
Definition hasPendingRequests (conn : Conn) (c : Client) : bool :=
  existsb (fun p => bool_decide (dataChannel p = conn))
    (snd <$> map_to_list (pendingRequests c)).

Definition closeIfNoPending (conn : Conn) (c : Client) : Client * list Effect :=
  if negb (hasPendingRequests conn c) then (c, [Close conn]) else (c, []).

Definition onOpen (c : Client) : Client * list Effect :=
  if negb (bool_decide (opts_dataChannel c = activeConnection c)) then (c, [])
  else dispatch (with_state st_open c).

Definition handleIncomingRequest (method : string) (c : Client)
  : Client * list Effect :=
  if String.eqb method "reconnect"
     && bool_decide (opts_dataChannel c = activeConnection c)
  then
    if bool_decide (state c = st_open)
    then closeIfNoPending (opts_dataChannel c) c
    else (c, [])
  else (c, []).

(** ["result" in data && data.result.type === "stopped"] *)
Definition is_stopped (data : TRPCResponseMessage) : bool :=
  match resp_body data with
  | WithResult ResultStopped => true
  | _ => false
  end.

Definition handleIncomingResponse (data : TRPCResponseMessage) (c : Client)
  : Client * list Effect :=
  let req :=
    match resp_id data with
    | None => None
    | Some id => pendingRequests c !! property_key id
    end in
  match resp_id data, req with
  | Some id, Some req =>
      let next := [CallNext (callbacks req) data] in
      let '(c1, rebind) :=
        if negb (bool_decide (dataChannel req = activeConnection c))
           && bool_decide (opts_dataChannel c = activeConnection c)
        then
          let oldWs := dataChannel req in
          let req' := mkRequest (activeConnection c) (type req)
                        (callbacks req) (op req) in
          closeIfNoPending oldWs
            (with_pendingRequests
               (<[property_key id := req']> (pendingRequests c)) c)
        else (c, []) in
      let complete :=
        if is_stopped data
           && bool_decide (opts_dataChannel c = activeConnection c)
        then [CallComplete (callbacks req)]
        else [] in
      (c1, next ++ rebind ++ complete)
  | _, _ => (c, [])
  end.

(** The [message] listener; [msg] is [JSON.parse(data)]. *)
Definition onMessage (msg : TRPCClientIncomingMessage) (c : Client)
  : Client * list Effect :=
  let '(c1, handled) :=
    match msg with
    | IncomingRequest method => handleIncomingRequest method c
    | IncomingResponse data => handleIncomingResponse data c
    end in
  if negb (bool_decide (opts_dataChannel c1 = activeConnection c1))
     || bool_decide (state c1 = st_closed)
  then
    let '(c2, closing) := closeIfNoPending (opts_dataChannel c1) c1 in
    (c2, handled ++ closing)
  else (c1, handled).

(** One turn of the loop of the [close] listener. *)
Definition onClose_entry (acc : Client * list Effect) (entry : string * TRequest)
  : Client * list Effect :=
  let '(c, effects) := acc in
  let '(key, req) := entry in
  if negb (bool_decide (dataChannel req = opts_dataChannel c)) then (c, effects)
  else if bool_decide (state c = st_closed) then
    (with_pendingRequests (delete key (pendingRequests c)) c,
     effects ++ [CallComplete (callbacks req)])
  else
    (with_pendingRequests (delete key (pendingRequests c)) c,
     effects ++ [CallError (callbacks req) "DataChannel closed prematurely"]).

(** The [close] listener: a loop over [Object.entries(pendingRequests)],
    taken before the loop starts.  The entries are visited in the order
    of the map, which is not the order of [Object.entries] (integer keys
    in ascending order, then the other keys in insertion order): what is
    stated of the callbacks of this listener is stated up to their
    order. *)
Definition onClose (c : Client) : Client * list Effect :=
  foldl onClose_entry (c, []) (map_to_list (pendingRequests c)).

Definition request (op : Operation) (callbacks : TCallbacks) (c : Client)
  : Client * list Effect :=
  let id := op_id op in
  let envelope := RequestEnvelope id (op_type op) (op_input op) (op_path op) in
  let c := with_pendingRequests
             (<[property_key id :=
                  mkRequest (activeConnection c) (op_type op) callbacks op]>
                (pendingRequests c)) c in
  let c := with_outgoing (outgoing c ++ [envelope]) c in
  dispatch c.

(** The cancellation function [request] returns, for the [op] it was
    called with. *)
Definition unsub (readyState : Conn -> ReadyState) (op : Operation) (c : Client)
  : Client * list Effect :=
  let id := op_id op in
  let callbacks := callbacks <$> pendingRequests c !! property_key id in
  let c := with_pendingRequests (delete (property_key id) (pendingRequests c)) c in
  let c := with_outgoing (filter (fun msg => msg_id msg ≠ id) (outgoing c)) c in
  let completed :=
    match callbacks with
    | Some cb => [CallComplete cb]
    | None => []
    end in
  if bool_decide (readyState (activeConnection c) = rs_open)
     && bool_decide (op_type op = subscription)
  then
    let c := with_outgoing (outgoing c ++ [StopEnvelope id]) c in
    let '(c, timer) := dispatch c in
    (c, completed ++ timer)
  else (c, completed).

Definition close (c : Client) : Client * list Effect :=
  let c := with_state st_closed c in
  closeIfNoPending (activeConnection c) c.

(** [createDataChannelClient({ dataChannel })], with the channel's
    [readyState] at that moment. *)
Definition createDataChannelClient (dataChannel : Conn) (readyState : ReadyState)
  : Client * list Effect :=
  let listen :=
    if negb (bool_decide (readyState = rs_open))
    then [AddOpenListener dataChannel]
    else [] in
  let c := mkClient dataChannel [] ∅ false st_connecting dataChannel in
  if bool_decide (readyState = rs_open) then
    let '(c, opened) := onOpen c in
    (c, listen ++ opened)
  else (c, listen).

(** *** The event loop *)

(** What can happen to a client: the listeners of its channel fire, the
    flush timer fires, or its owner calls [request], a cancellation
    function or [close].  Where a handler reads [readyState], the event
    carries the channel states at that moment. *)
Inductive Event : Type :=
| EvOpen
| EvMessage (msg : TRPCClientIncomingMessage)
| EvClose
| EvTimeout (readyState : Conn → ReadyState)
| EvRequest (op : Operation) (callbacks : TCallbacks)
| EvCancel (readyState : Conn → ReadyState) (op : Operation)
| EvCloseCall.

Definition deliver (ev : Event) (c : Client) : Client * list Effect :=
  match ev with
  | EvOpen => onOpen c
  | EvMessage msg => onMessage msg c
  | EvClose => onClose c
  | EvTimeout readyState => dispatch_timeout readyState c
  | EvRequest op callbacks => request op callbacks c
  | EvCancel readyState op => unsub readyState op c
  | EvCloseCall => close c
  end.

Fixpoint run (evs : list Event) (c : Client) : Client * list Effect :=
  match evs with
  | [] => (c, [])
  | ev :: evs' =>
      let '(c1, effects1) := deliver ev c in
      let '(c2, effects2) := run evs' c1 in
      (c2, effects1 ++ effects2)
  end.

(** The events whose ids are all filed by [property_key] as JavaScript
    files them. *)
Definition exact_ids (ev : Event) : bool :=
  match ev with
  | EvRequest op _ => exact_key (op_id op)
  | EvCancel _ op => exact_key (op_id op)
  | EvMessage (IncomingResponse data) =>
      match resp_id data with
      | Some id => exact_key id
      | None => true
      end
  | _ => true
  end.

(** An event that touches the bookkeeping of [id]: a request filed under
    its property key, or a call of a cancellation function for it. *)
Definition involves (id : RequestId) (ev : Event) : Prop :=
  match ev with
  | EvRequest op _ => property_key (op_id op) = property_key id
  | EvCancel _ op => op_id op = id
  | _ => False
  end.

(** Every pending request is bound to the active connection, which is the
    channel the client was created for. *)
Definition bound_to_active (c : Client) : Prop :=
  opts_dataChannel c = activeConnection c
  ∧ map_Forall (fun _ req => dataChannel req = activeConnection c)
      (pendingRequests c).

(** The callback invocation that settles a request when its channel
    closes. *)
Definition settle (c : Client) (req : TRequest) : Effect :=
  if bool_decide (state c = st_closed) then CallComplete (callbacks req)
  else CallError (callbacks req) "DataChannel closed prematurely".

(** An entry of [pendingRequests] owned by the client's channel. *)
Definition owned (c : Client) (entry : string * TRequest) : Prop :=
  dataChannel entry.2 = opts_dataChannel c.

#[global] Instance owned_dec c entry : Decision (owned c entry).
Proof. unfold owned. apply _. Defined.

(** An effect that invokes a callback of an observer. *)
Definition is_callback (e : Effect) : bool :=
  match e with
  | CallNext _ _ | CallError _ _ | CallComplete _ => true
  | _ => false
  end.

End Link.

(** * The envelopes on the wire *)

Module Wire.

(** A [ProcedureType] is its name. *)
Definition type_name (type : ProcedureType) : string :=
  match type with
  | query => "query"
  | mutation => "mutation"
  | subscription => "subscription"
  end.

Definition id_value (id : Link.RequestId) : jsval :=
  match id with
  | Link.IdNumber n => JNumber (Num n)
  | Link.IdString s => JString s
  end.

(** The [envelope] that [request] builds for an operation. *)
Definition request_envelope (op : Link.Operation) : Link.TRPCClientOutgoingMessage :=
  Link.RequestEnvelope (Link.op_id op) (Link.op_type op) (Link.op_input op)
    (Link.op_path op).

(** The object literals behind the envelopes of the link:
    [{ id, method: type, params: { input, path } }] in [request] and
    [{ id, method: "subscription.stop" }] in the cancellation function. *)
Definition envelope_value (msg : Link.TRPCClientOutgoingMessage) : jsval :=
  match msg with
  | Link.RequestEnvelope id method input path =>
      JObject [("id", id_value id);
               ("method", JString (type_name method));
               ("params", JObject [("input", input); ("path", JString path)])]
  | Link.StopEnvelope id =>
      JObject [("id", id_value id); ("method", JString "subscription.stop")]
  end.

(** The events of a burst of [request] calls. *)
Definition requests (reqs : list (Link.Operation * Link.TCallbacks))
  : list Link.Event :=
  (fun r => Link.EvRequest r.1 r.2) <$> reqs.

(** The frame the flush timer sends for a queue. *)
Definition frame_of (queue : list Link.TRPCClientOutgoingMessage) : Link.Frame :=
  match queue with
  | [msg] => Link.ObjectFrame msg
  | _ => Link.ArrayFrame queue
  end.

End Wire.

(** * The link: [dataChannelLink] *)

Module DataChannelLink.

(** What [transformResult(message, runtime)] returns, a function of
    [./internals] that is not part of the sources at hand: [ok] with the
    result, or not [ok] with an error. *)
Inductive Transformed : Type :=
| TransformOk (result : jsval)
| TransformFailed (error : jsval).

(** The errors the link hands to its observer. *)
Inductive LinkError : Type :=
| Forwarded (err : string)
| FromResponse (error : jsval)
| EndedPrematurely.

(** What the callbacks do to their collaborators: the observer of the
    observable, and [unsub], the cancellation function of the client. *)
Inductive Effect : Type :=
| ObserverNext (result : jsval)
| ObserverError (err : LinkError)
| ObserverComplete
| Unsub.

(** The callbacks passed to [client.request], and the teardown function the
    observable returns; the state they share is the flag [isDone]. *)
Definition error (err : string) (isDone : bool) : bool * list Effect :=
  (true, [ObserverError (Forwarded err); Unsub]).

Definition complete (isDone : bool) : bool * list Effect :=
  if negb isDone then (true, [ObserverError EndedPrematurely])
  else (isDone, [ObserverComplete]).

Definition next (type : ProcedureType) (transformed : Transformed) (isDone : bool)
  : bool * list Effect :=
  match transformed with
  | TransformFailed error => (isDone, [ObserverError (FromResponse error)])
  | TransformOk result =>
      if negb (bool_decide (type = subscription))
      then (true, [ObserverNext result; Unsub; ObserverComplete])
      else (isDone, [ObserverNext result])
  end.

Definition teardown (isDone : bool) : bool * list Effect :=
  (true, [Unsub]).

(** An invocation of one of the four. *)
Inductive Callback : Type :=
| OnError (err : string)
| OnComplete
| OnNext (transformed : Transformed)
| Teardown.

Definition invoke (type : ProcedureType) (cb : Callback) (isDone : bool)
  : bool * list Effect :=
  match cb with
  | OnError err => error err isDone
  | OnComplete => complete isDone
  | OnNext transformed => next type transformed isDone
  | Teardown => teardown isDone
  end.

Fixpoint invoke_all (type : ProcedureType) (cbs : list Callback) (isDone : bool)
  : bool * list Effect :=
  match cbs with
  | [] => (isDone, [])
  | cb :: cbs' =>
      let '(isDone1, effects1) := invoke type cb isDone in
      let '(isDone2, effects2) := invoke_all type cbs' isDone1 in
      (isDone2, effects1 ++ effects2)
  end.

(** The report "Operation ended prematurely". *)
Definition is_premature (e : Effect) : bool :=
  match e with
  | ObserverError EndedPrematurely => true
  | _ => false
  end.

End DataChannelLink.

(** * Concrete scenarios *)

Module Scenario.

(** A cancel envelope for id 1, as the link sends it. *)
Definition stop_1 : jsval :=
  JObject [("id", JNumber (Num 1)); ("method", JString "subscription.stop")].

(** An envelope with a method the codec does not know. *)
Definition bogus_2 : jsval :=
  JObject [("id", JNumber (Num 2)); ("method", JString "bogus")].

(** A registry holding one subscription, under id 1. *)
Definition registry_1 : Handler.Registry := [(JNumber (Num 1), 7)].

(** A second subscription request under id 1, and the stream its
    procedure returns. *)
Definition call_1 : Handler.ProcedureCall :=
  Handler.mkCall (JNumber (Num 1)) JUndefined subscription "testSubscription"
    (JObject [("channel", JString "test")]).

Definition stream_9 : Handler.Observable := Handler.mkObservable [] 9.

(** A client created on channel 0, already open, and the channel staying
    open. *)
Definition client_0 : Link.Client := (Link.createDataChannelClient 0 rs_open).1.

Definition all_open : Link.Conn → ReadyState := fun _ => rs_open.

Definition op_sub : Link.Operation :=
  Link.mkOperation subscription (JObject [("channel", JString "test")])
    "testSubscription" (Link.IdNumber 1).

Definition op_query : Link.Operation :=
  Link.mkOperation query (JObject [("id", JString "world")])
    "testQuery" (Link.IdNumber 2).

(** The subscription of [op_sub] requested with observer 10 and its
    request envelope flushed. *)
Definition subscribed : Link.Client :=
  (Link.run [Link.EvRequest op_sub 10; Link.EvTimeout all_open] client_0).1.

(** The same, then cancelled once and the cancel envelope flushed. *)
Definition cancelled : Link.Client :=
  (Link.run [Link.EvCancel all_open op_sub; Link.EvTimeout all_open] subscribed).1.

(** The responder's [stopped] response for id 1. *)
Definition stopped_1 : Link.TRPCResponseMessage :=
  Link.mkResponse (Some (Link.IdNumber 1)) (Link.WithResult Link.ResultStopped).

(** The responder's unsolicited error report, id [null]. *)
Definition unsolicited : Link.TRPCResponseMessage :=
  Link.mkResponse None (Link.WithError (JObject [("code", JString "PARSE_ERROR")])).

(** A cancel envelope that carries no id. *)
Definition stop_null : jsval :=
  JObject [("id", JNull); ("method", JString "subscription.stop")].

(** A subscription request whose id is an object. *)
Definition call_obj : Handler.ProcedureCall :=
  Handler.mkCall (JObject [("n", JNumber (Num 1))]) JUndefined subscription
    "testSubscription" (JObject [("channel", JString "test")]).

(** A query under id 2. *)
Definition call_2 : Handler.ProcedureCall :=
  Handler.mkCall (JNumber (Num 2)) JUndefined query "testQuery"
    (JObject [("id", JString "world")]).

(** [client_0] after the flush that its creation armed: open and idle. *)
Definition idle_0 : Link.Client := (Link.run [Link.EvTimeout all_open] client_0).1.

(** The subscription of [op_sub] requested on [client_0], not yet flushed. *)
Definition requested : Link.Client :=
  (Link.run [Link.EvRequest op_sub 10] client_0).1.

(** Every channel closed, as after the [close] event. *)
Definition all_closed : Link.Conn → ReadyState := fun _ => rs_closed.

(** A query whose id is the string of the id of [op_sub]. *)
Definition op_query_1 : Link.Operation :=
  Link.mkOperation query (JObject [("id", JString "world")])
    "testQuery" (Link.IdString "1").

(** A client created on channel 0 while it is still connecting. *)
Definition connecting_0 : Link.Client :=
  (Link.createDataChannelClient 0 rs_connecting).1.

(** A [data] response for id 2. *)
Definition data_2 : Link.TRPCResponseMessage :=
  Link.mkResponse (Some (Link.IdNumber 2))
    (Link.WithResult (Link.ResultData (JString "hello"))).

(** A burst of two [request] calls. *)
Definition burst : list (Link.Operation * Link.TCallbacks) :=
  [(op_sub, 10); (op_query, 11)].

End Scenario.

(** * Properties of the responder *)

(** Closes a goal from a membership [H : x ∈ [y1; ...; yn]] in which [x]
    differs from every [yi] by its constructor. *)
Ltac absurd_member H :=
  repeat (apply elem_of_cons in H as [H | H]; [discriminate H|]);
  by apply elem_of_nil in H.

Section HandlerProperties.

Import Handler.

Implicit Types deserialize : jsval → Result jsval.

(** [assertIsRequestId] throws for exactly one value, the number [NaN]. *)
Lemma assertIsRequestId_throws_iff (obj : jsval) :
  assertIsRequestId obj = Throw "Invalid request id" ↔ obj = JNumber NaN.
Proof.
  split.
  - destruct obj as [| | b | [|z] | s | l | fs]; cbn; congruence.
  - intros ->. reflexivity.
Qed.

Lemma assertIsRequestId_accepts (obj : jsval) :
  obj ≠ JNumber NaN → assertIsRequestId obj = Ok ().
Proof.
  destruct obj as [| | b | [|z] | s | l | fs]; cbn; congruence.
Qed.

(** Hence a cancel envelope passes the codec with any id that
    [JSON.parse] can produce. *)
Lemma parseMessage_stop_any_id deserialize (id : jsval) :
  id ≠ JNumber NaN →
  parseMessage deserialize
    (JObject [("id", id); ("method", JString "subscription.stop")])
  = Ok (StopMessage id JUndefined).
Proof.
  intros Hid. unfold parseMessage. cbn.
  rewrite (assertIsRequestId_accepts id Hid). reflexivity.
Qed.

(** A method that is none of the four known ones is rejected. *)
Lemma parseMessage_unknown_method deserialize (fs : list (string * jsval)) :
  is_string (field "method" fs) "subscription.stop" = false →
  is_string (field "method" fs) "query" = false →
  is_string (field "method" fs) "subscription" = false →
  is_string (field "method" fs) "mutation" = false →
  ∃ e, parseMessage deserialize (JObject fs) = Throw e.
Proof.
  intros Hstop Hq Hs Hm. unfold parseMessage. cbn.
  destruct (assertIsRequestId (field "id" fs)); cbn; [|eauto].
  destruct (assertIsJSONRPC2OrUndefined (field "jsonrpc" fs)); cbn; [|eauto].
  rewrite Hstop. unfold assertIsProcedureType. rewrite Hq, Hs, Hm. cbn. eauto.
Qed.

(** A request whose [params] is not an object is rejected. *)
Lemma parseMessage_params_not_object deserialize (fs : list (string * jsval)) :
  is_string (field "method" fs) "subscription.stop" = false →
  (∀ ps, field "params" fs ≠ JObject ps) →
  ∃ e, parseMessage deserialize (JObject fs) = Throw e.
Proof.
  intros Hstop Hparams. unfold parseMessage. cbn.
  destruct (assertIsRequestId (field "id" fs)); cbn; [|eauto].
  destruct (assertIsJSONRPC2OrUndefined (field "jsonrpc" fs)); cbn; [|eauto].
  rewrite Hstop.
  destruct (assertIsProcedureType (field "method" fs)); cbn; [|eauto].
  destruct (field "params" fs) as [| | b | [|z] | s | l | ps] eqn:E;
    cbn; eauto.
  exfalso. eapply Hparams. reflexivity.
Qed.

(** Only an object is an envelope. *)
Lemma parseMessage_not_object deserialize (obj : jsval) :
  (∀ fs, obj ≠ JObject fs) → parseMessage deserialize obj = Throw "Not an object".
Proof.
  intros Hobj. unfold parseMessage.
  destruct obj as [| | b | [|z] | s | l | fs]; cbn; try reflexivity.
  exfalso. eapply Hobj. reflexivity.
Qed.

(** [map] stops at the first element that throws. *)
Lemma map_throwing_elem {A B : Type} (f : A → Result B) (l : list A) (x : A) (e : string) :
  x ∈ l → f x = Throw e → ∃ e', map_throwing f l = Throw e'.
Proof.
  induction l as [|a l IH]; intros Hin Hx.
  - inversion Hin.
  - cbn. apply elem_of_cons in Hin as [<- | Hin].
    + rewrite Hx. cbn. eauto.
    + destruct (f a) as [b|e1]; cbn; [|eauto].
      destruct (IH Hin Hx) as [e' ->]. cbn. eauto.
Qed.

(** The observer of a subscription never sends [started]. *)
Lemma subscribe_no_started (observable : Observable) (call : ProcedureCall) id jsonrpc :
  Send (ResultResponse id jsonrpc ResultStarted) ∉ (subscribe observable call).1.
Proof.
  unfold subscribe. cbn. induction (emitted observable) as [|ev evs IH]; cbn.
  - apply not_elem_of_nil.
  - rewrite elem_of_app. intros [H | H]; [|auto].
    destruct ev; unfold observer, respond in H; cbn in H; absurd_member H.
Qed.

(** C9, evaluated where the code departs from it: an envelope whose id is
    the boolean [true] is neither a string, a number nor null, and
    [parseMessage] returns it as a cancel envelope instead of throwing;
    the same holds for a request envelope whose id is an object. *)
Theorem parseMessage_accepts_malformed_id :
  parseMessage Ok
    (JObject [("id", JBool true); ("method", JString "subscription.stop")])
  = Ok (StopMessage (JBool true) JUndefined)
  ∧ parseMessage Ok
      (JObject [("id", JObject []); ("method", JString "query");
                ("params", JObject [("path", JString "testQuery")])])
    = Ok (RequestMessage (JObject []) JUndefined query JUndefined "testQuery").
Proof. split; reflexivity. Qed.

(** C1, as the code has it: when any member of an incoming frame (the
    elements of a batch, or the single envelope) fails envelope parsing,
    the whole frame is dropped.  No member is handled, the registry is
    unchanged, no call is started, and the only effect is one unsolicited
    [PARSE_ERROR] response with id [null]. *)
Theorem onMessage_parse_failure_drops_frame
    deserialize (frame : jsval) (subs : Registry) (bad : jsval) (e : string) :
  bad ∈ frame_members frame →
  parseMessage deserialize bad = Throw e →
  ∃ cause,
    onMessage deserialize (Ok frame) subs
    = (subs, [Send (parse_error_response (Some cause))], []).
Proof.
  intros Hin Hbad. unfold onMessage. cbn.
  destruct (map_throwing_elem _ _ _ _ Hin Hbad) as [cause ->].
  exists cause. reflexivity.
Qed.

Lemma same_value_zero_eq (a b : jsval) :
  same_value_zero a b = true → a = b.
Proof.
  destruct a, b; cbn; try discriminate; try reflexivity.
  - intros H. apply Bool.eqb_prop in H. by subst.
  - intros H. apply bool_decide_eq_true in H. by subst.
  - intros H. apply String.eqb_eq in H. by subst.
Qed.

Lemma Map_get_delete_absent (id : jsval) (m : Registry) :
  Map_get id m = None → Map_delete id m = m.
Proof.
  induction m as [|[k v] m IH]; cbn; [done|].
  destruct (same_value_zero k id); [discriminate|].
  intros H. by rewrite IH.
Qed.

Lemma Map_get_delete_other (id id' : jsval) (m : Registry) :
  same_value_zero id id' = false →
  Map_get id' (Map_delete id m) = Map_get id' m.
Proof.
  intros Hne. induction m as [|[k v] m IH]; cbn; [done|].
  destruct (same_value_zero k id) eqn:Hk.
  - apply same_value_zero_eq in Hk as ->. by rewrite Hne.
  - cbn. by rewrite IH.
Qed.

Lemma Map_get_delete_same (id : jsval) (m : Registry) :
  Map_keys_distinct m → Map_get id (Map_delete id m) = None.
Proof.
  induction m as [|[k v] m IH]; cbn; [done|].
  intros [Hk Hm]. destruct (same_value_zero k id) eqn:Hkid.
  - apply same_value_zero_eq in Hkid as <-. exact Hk.
  - cbn. rewrite Hkid. by apply IH.
Qed.

Lemma Map_delete_keeps_distinct (id : jsval) (m : Registry) :
  Map_keys_distinct m → Map_keys_distinct (Map_delete id m).
Proof.
  induction m as [|[k v] m IH]; cbn; [done|].
  intros [Hk Hm]. destruct (same_value_zero k id) eqn:Hkid; [done|].
  cbn. split; [|by apply IH].
  destruct (same_value_zero id k) eqn:Hidk.
  - pose proof (same_value_zero_eq _ _ Hidk) as ->. congruence.
  - by rewrite Map_get_delete_other.
Qed.

Lemma Map_get_set_same (id : jsval) (sub : Unsubscribable) (m : Registry) :
  same_value_zero id id = true → Map_get id (Map_set id sub m) = Some sub.
Proof.
  intros Hid. induction m as [|[k v] m IH]; cbn.
  - by rewrite Hid.
  - destruct (same_value_zero k id) eqn:Hk; cbn; by rewrite Hk.
Qed.

Lemma Map_get_set_other (id id' : jsval) (sub : Unsubscribable) (m : Registry) :
  same_value_zero id id' = false →
  Map_get id' (Map_set id sub m) = Map_get id' m.
Proof.
  intros Hne. induction m as [|[k v] m IH]; cbn.
  - by rewrite Hne.
  - destruct (same_value_zero k id) eqn:Hk; cbn.
    + apply same_value_zero_eq in Hk as ->. by rewrite Hne.
    + by rewrite IH.
Qed.

Lemma Map_set_keeps_distinct (id : jsval) (sub : Unsubscribable) (m : Registry) :
  Map_keys_distinct m → Map_keys_distinct (Map_set id sub m).
Proof.
  induction m as [|[k v] m IH]; cbn; [done|].
  intros [Hk Hm]. destruct (same_value_zero k id) eqn:Hkid; cbn; [done|].
  split; [|by apply IH].
  destruct (same_value_zero id k) eqn:Hidk.
  - pose proof (same_value_zero_eq _ _ Hidk) as ->. congruence.
  - by rewrite Map_get_set_other.
Qed.

Lemma Map_delete_set_fresh (id : jsval) (sub : Unsubscribable) (m : Registry) :
  same_value_zero id id = true → Map_get id m = None →
  Map_delete id (Map_set id sub m) = m.
Proof.
  intros Hid. induction m as [|[k v] m IH]; cbn.
  - by rewrite Hid.
  - destruct (same_value_zero k id) eqn:Hk; [discriminate|].
    intros Hm. cbn. rewrite Hk. by rewrite IH.
Qed.

Lemma Map_set_fresh_unprimitive (id : jsval) (sub : Unsubscribable) (m : Registry) :
  same_value_zero id id = false → Map_set id sub m = m ++ [(id, sub)].
Proof.
  intros Hid. induction m as [|[k v] m IH]; cbn; [done|].
  destruct (same_value_zero k id) eqn:Hk.
  - pose proof (same_value_zero_eq _ _ Hk) as ->. congruence.
  - by rewrite IH.
Qed.

Lemma Map_get_unprimitive (id : jsval) (m : Registry) :
  same_value_zero id id = false → Map_get id m = None.
Proof.
  intros Hid. induction m as [|[k v] m IH]; cbn; [done|].
  destruct (same_value_zero k id) eqn:Hk; [|done].
  pose proof (same_value_zero_eq _ _ Hk) as ->. congruence.
Qed.

(** Setting a key the map does not hold appends the entry, as a
    JavaScript [Map] keeps insertion order. *)
Lemma Map_set_absent (id : jsval) (sub : Unsubscribable) (m : Registry) :
  Map_get id m = None → Map_set id sub m = m ++ [(id, sub)].
Proof.
  induction m as [|[k v] m IH]; cbn; [done|].
  destruct (same_value_zero k id); [discriminate|].
  intros Hm. by rewrite IH.
Qed.

(** C3, as the code has it: a subscription request whose procedure
    yielded a stream, at the point where the stream has been subscribed
    to.  With the transport open and the id already in the registry, the
    new subscription is unsubscribed, [stopped] is sent for it, and a
    [BAD_REQUEST] error is reported and sent for the request, its message
    "Duplicate id" followed by the id, the registry staying as it was.
    With the transport open and the id not in the registry, the
    subscription is appended to the registry under the id, where a
    primitive id finds it again, and [started] is sent.  With the
    transport not open the new subscription is unsubscribed and that is
    all: nothing is sent and nothing registered, duplicate or not.
    [started] is sent in the second case only. *)
Theorem handleRequest_duplicate_subscription_id
    (call : ProcedureCall) (observable : Observable) (readyState : ReadyState)
    (subs : Registry) :
  call_type call = subscription →
  let id := call_id call in
  let jsonrpc := call_jsonrpc call in
  let duplicate message :=
    mkErrorShape (mkTRPCError "BAD_REQUEST" (Some message) None)
      (Some subscription) (Some (call_path call)) (call_input call) in
  let emits := (subscribe observable call).1 in
  let sub := handle observable in
  let started := Send (ResultResponse id jsonrpc ResultStarted) in
  let result :=
    handleRequest_resume call (Resolved (Stream observable)) readyState subs in
  (readyState = rs_open → Map_has id subs = true →
     ∃ message,
       result = (subs,
                 emits ++ [Unsubscribe sub;
                           Send (ResultResponse id jsonrpc ResultStopped);
                           OnError (duplicate message);
                           Send (ErrorResponse id jsonrpc (duplicate message))])
       ∧ (exact_string id = true → message = "Duplicate id " +:+ to_string id))
  ∧ (readyState = rs_open → Map_has id subs = false →
     result = (subs ++ [(id, sub)], emits ++ [started])
     ∧ (same_value_zero id id = true → Map_get id result.1 = Some sub))
  ∧ (readyState ≠ rs_open → result = (subs, emits ++ [Unsubscribe sub]))
  ∧ (started ∈ result.2 ↔ readyState = rs_open ∧ Map_has id subs = false).
Proof.
  intros Htype id jsonrpc duplicate emits sub started result.
  assert (Hdup : readyState = rs_open → Map_has id subs = true →
     result = (subs,
               emits ++ [Unsubscribe sub;
                         Send (ResultResponse id jsonrpc ResultStopped);
                         OnError (duplicate ("Duplicate id " +:+ to_string id));
                         Send (ErrorResponse id jsonrpc
                                 (duplicate ("Duplicate id " +:+ to_string id)))])).
  { intros -> Hhas. subst result. unfold handleRequest_resume, try_block.
    rewrite Htype. cbn. fold id. rewrite Hhas. cbn.
    subst duplicate emits sub id jsonrpc.
    rewrite !bool_decide_eq_true_2 by reflexivity. cbn. unfold respond.
    rewrite <- app_assoc. reflexivity. }
  assert (Hnew : readyState = rs_open → Map_has id subs = false →
     result = (subs ++ [(id, sub)], emits ++ [started])).
  { intros -> Hhas. subst result. unfold handleRequest_resume, try_block.
    rewrite Htype. cbn. fold id. rewrite Hhas.
    rewrite !bool_decide_eq_true_2 by reflexivity. cbn.
    rewrite Map_set_absent; [reflexivity|].
    unfold Map_has in Hhas. by destruct (Map_get id subs). }
  assert (Hclosed : readyState ≠ rs_open →
     result = (subs, emits ++ [Unsubscribe sub])).
  { intros Hrs. subst result. unfold handleRequest_resume, try_block.
    rewrite Htype. cbn.
    rewrite (bool_decide_eq_true_2 (subscription = subscription)) by reflexivity.
    rewrite (bool_decide_eq_false_2 _ Hrs). reflexivity. }
  split; [|split; [|split; [exact Hclosed|]]].
  - intros Hopen Hhas. exists ("Duplicate id " +:+ to_string id).
    split; [by apply Hdup | done].
  - intros Hopen Hhas. rewrite (Hnew Hopen Hhas). split; [reflexivity|].
    intros Hprim. cbn [fst].
    rewrite <- (Map_set_absent id sub subs)
      by (unfold Map_has in Hhas; by destruct (Map_get id subs)).
    by apply Map_get_set_same.
  - destruct (decide (readyState = rs_open)) as [Hopen | Hrs].
    + destruct (Map_has id subs) eqn:Hhas.
      * rewrite (Hdup Hopen eq_refl). cbn. split; [|intros [_ [=]]].
        rewrite elem_of_app, !elem_of_cons, elem_of_nil.
        intros [H | H].
        -- exfalso. exact (subscribe_no_started observable call id jsonrpc H).
        -- subst started. intuition congruence.
      * rewrite (Hnew Hopen eq_refl). cbn. split; [done|]. intros _.
        rewrite elem_of_app, elem_of_cons. right. left. reflexivity.
    + rewrite (Hclosed Hrs). cbn. split; [|intros [? _]; done].
      rewrite elem_of_app, elem_of_cons, elem_of_nil.
      intros [H | [H | []]].
      * exfalso. exact (subscribe_no_started observable call id jsonrpc H).
      * discriminate H.
Qed.

End HandlerProperties.

Section HandlerScenarios.

Import Handler Scenario.

(** The batch [[stop_1; bogus_2]] is dropped as a whole. *)
Lemma onMessage_parse_failure_drops_frame_witness :
  ∃ cause,
    onMessage Ok (Ok (JArray [stop_1; bogus_2])) registry_1
    = (registry_1, [Send (parse_error_response (Some cause))], []).
Proof.
  apply (onMessage_parse_failure_drops_frame Ok (JArray [stop_1; bogus_2])
           registry_1 bogus_2 "Invalid procedure type").
  - repeat constructor.
  - reflexivity.
Defined.

(** C1 as stated fails: in the batch [[stop_1; bogus_2]] the second member
    does not parse, the first is a well-formed cancel envelope for a
    registered subscription, and that subscription is not unsubscribed. *)
Lemma batch_members_are_not_independent :
  ¬ (∀ (msgs : list jsval) (subs : Registry) (bad good : jsval) (e : string)
       (id jsonrpc : jsval) (sub : Unsubscribable),
       bad ∈ msgs → parseMessage Ok bad = Throw e →
       good ∈ msgs → parseMessage Ok good = Ok (StopMessage id jsonrpc) →
       is_null id = false → Map_get id subs = Some sub →
       Unsubscribe sub ∈ (onMessage Ok (Ok (JArray msgs)) subs).1.2).
Proof.
  intros Hclaim.
  specialize (Hclaim [stop_1; bogus_2] registry_1 bogus_2 stop_1
                "Invalid procedure type" (JNumber (Num 1)) JUndefined 7).
  assert (Hin : Unsubscribe 7
                ∈ (onMessage Ok (Ok (JArray [stop_1; bogus_2])) registry_1).1.2).
  { apply Hclaim; try reflexivity; repeat constructor. }
  vm_compute in Hin. absurd_member Hin.
Qed.

(** A second subscription under id 1 while the first is registered. *)
Lemma handleRequest_duplicate_subscription_id_witness :
  handleRequest_resume call_1 (Resolved (Stream stream_9)) rs_open registry_1
  = (registry_1,
     [Unsubscribe 9;
      Send (ResultResponse (JNumber (Num 1)) JUndefined ResultStopped);
      OnError (mkErrorShape
                 (mkTRPCError "BAD_REQUEST" (Some "Duplicate id 1") None)
                 (Some subscription) (Some "testSubscription")
                 (JObject [("channel", JString "test")]));
      Send (ErrorResponse (JNumber (Num 1)) JUndefined
              (mkErrorShape
                 (mkTRPCError "BAD_REQUEST" (Some "Duplicate id 1") None)
                 (Some subscription) (Some "testSubscription")
                 (JObject [("channel", JString "test")])))]).
Proof.
  destruct (proj1 (handleRequest_duplicate_subscription_id call_1 stream_9
                     rs_open registry_1 eq_refl) eq_refl eq_refl)
    as (message & Hresult & Hmessage).
  rewrite Hresult, (Hmessage eq_refl). reflexivity.
Defined.

(** C3 as stated fails: the second subscription under id 1 arrives at the
    duplicate check when the transport is closed.  The new subscription
    is unsubscribed, but no [stopped] response and no error response is
    sent for it. *)
Lemma duplicate_id_on_closed_transport :
  ¬ (∀ (call : ProcedureCall) (observable : Observable)
       (readyState : ReadyState) (subs : Registry),
       call_type call = subscription →
       Map_has (call_id call) subs = true →
       let effects :=
         (handleRequest_resume call (Resolved (Stream observable))
            readyState subs).2 in
       Unsubscribe (handle observable) ∈ effects
       ∧ Send (ResultResponse (call_id call) (call_jsonrpc call) ResultStopped)
         ∈ effects
       ∧ ∃ shape,
           code (shape_error shape) = "BAD_REQUEST"
           ∧ Send (ErrorResponse (call_id call) (call_jsonrpc call) shape)
             ∈ effects).
Proof.
  intros Hclaim.
  destruct (Hclaim call_1 stream_9 rs_closed registry_1 eq_refl eq_refl)
    as (_ & Hstopped & _).
  vm_compute in Hstopped. absurd_member Hstopped.
Qed.

End HandlerScenarios.

(** * Properties of the caller *)

Section LinkProperties.

Import Link.

Lemma with_pendingRequests_id (c : Client) :
  with_pendingRequests (pendingRequests c) c = c.
Proof. destruct c. reflexivity. Qed.

Lemma hasPendingRequests_true (conn : Conn) (c : Client) :
  hasPendingRequests conn c = true
  ↔ ∃ key req, pendingRequests c !! key = Some req ∧ dataChannel req = conn.
Proof.
  unfold hasPendingRequests. rewrite existsb_exists. split.
  - intros (req & Hin & Hconn).
    apply list_elem_of_In, list_elem_of_fmap in Hin as ([key req'] & -> & Hin).
    apply elem_of_map_to_list in Hin.
    apply bool_decide_eq_true in Hconn. eauto.
  - intros (key & req & Hlook & Hconn). exists req. split.
    + apply list_elem_of_In, list_elem_of_fmap. exists (key, req).
      split; [reflexivity|]. by apply elem_of_map_to_list.
    + by apply bool_decide_eq_true.
Qed.

Lemma hasPendingRequests_false (conn : Conn) (c : Client) :
  hasPendingRequests conn c = false
  ↔ ∀ key req, pendingRequests c !! key = Some req → dataChannel req ≠ conn.
Proof.
  rewrite <- not_true_iff_false, hasPendingRequests_true. split.
  - intros Hno key req Hlook Hconn. apply Hno. eauto.
  - intros Hall (key & req & Hlook & Hconn). exact (Hall key req Hlook Hconn).
Qed.

(** The loop of the [close] listener, for any table it has reached and any
    entries still to visit. *)
Lemma onClose_fold (c : Client) (l : list (string * TRequest))
    (m : gmap string TRequest) (t : list Effect) :
  foldl onClose_entry (with_pendingRequests m c, t) l
  = (with_pendingRequests
       (foldl (fun m entry => delete entry.1 m) m (filter (owned c) l)) c,
     t ++ (settle c ∘ snd <$> filter (owned c) l)).
Proof.
  revert m t. induction l as [|[key req] l IH]; intros m t.
  - cbn. by rewrite app_nil_r.
  - cbn [foldl].
    destruct (decide (owned c (key, req))) as [Hown | Hown].
    + rewrite filter_cons_True by done.
      assert (Hstep : onClose_entry (with_pendingRequests m c, t) (key, req)
                      = (with_pendingRequests (delete key m) c,
                         t ++ [settle c req])).
      { unfold onClose_entry, settle. cbn.
        rewrite (bool_decide_eq_true_2 _ Hown). cbn.
        destruct (bool_decide (state c = st_closed)); reflexivity. }
      rewrite Hstep, IH, <- app_assoc. reflexivity.
    + rewrite filter_cons_False by done.
      assert (Hstep : onClose_entry (with_pendingRequests m c, t) (key, req)
                      = (with_pendingRequests m c, t)).
      { unfold onClose_entry. cbn.
        rewrite (bool_decide_eq_false_2 _ Hown). reflexivity. }
      rewrite Hstep. apply IH.
Qed.

Lemma foldl_delete_lookup_Some (l : list (string * TRequest))
    (m : gmap string TRequest) (key : string) (req : TRequest) :
  foldl (fun m entry => delete entry.1 m) m l !! key = Some req
  ↔ m !! key = Some req ∧ key ∉ l.*1.
Proof.
  revert m. induction l as [|[k r] l IH]; intros m; cbn.
  - split; [intros H; split; [done | apply not_elem_of_nil] | by intros [H _]].
  - rewrite IH, lookup_delete_Some, not_elem_of_cons. intuition.
Qed.

(** The [close] listener in closed form: the table keeps the entries that
    are not owned, and the effects settle the owned ones. *)
Lemma onClose_closed_form (c : Client) :
  onClose c
  = (with_pendingRequests
       (filter (fun entry => ¬ owned c entry) (pendingRequests c)) c,
     settle c ∘ snd <$> filter (owned c) (map_to_list (pendingRequests c))).
Proof.
  unfold onClose.
  rewrite <- (with_pendingRequests_id c) at 1.
  rewrite onClose_fold. cbn [app]. f_equal. f_equal.
  apply map_eq. intros key. apply option_eq. intros req.
  rewrite foldl_delete_lookup_Some, map_lookup_filter_Some.
  split.
  - intros [Hlook Hnot]. split; [done|]. intros Hown. apply Hnot.
    apply list_elem_of_fmap. exists (key, req). split; [done|].
    apply list_elem_of_filter. split; [done|]. by apply elem_of_map_to_list.
  - intros [Hlook Hnot]. split; [done|]. intros Hin.
    apply list_elem_of_fmap in Hin as ([k r] & -> & Hin).
    apply list_elem_of_filter in Hin as [Hown Hin].
    apply elem_of_map_to_list in Hin. cbn in Hlook.
    rewrite Hin in Hlook. injection Hlook as ->. done.
Qed.

(** An owned pending request is gone from the table after the listener
    ran, and its settling callback was invoked. *)
Lemma onClose_owned_request (c : Client) (key : string) (req : TRequest) :
  pendingRequests c !! key = Some req →
  dataChannel req = opts_dataChannel c →
  pendingRequests (onClose c).1 !! key = None ∧ settle c req ∈ (onClose c).2.
Proof.
  intros Hlook Hown. rewrite onClose_closed_form. cbn. split.
  - apply map_lookup_filter_None. right. intros r Hr Hnot.
    rewrite Hlook in Hr. injection Hr as <-. by apply Hnot.
  - apply list_elem_of_fmap. exists (key, req). split; [done|].
    apply list_elem_of_filter. split; [done|]. by apply elem_of_map_to_list.
Qed.

(** Every effect of the [close] listener settles an owned pending
    request. *)
Lemma onClose_effects (c : Client) (e : Effect) :
  e ∈ (onClose c).2 →
  ∃ key req, pendingRequests c !! key = Some req
             ∧ dataChannel req = opts_dataChannel c
             ∧ e = settle c req.
Proof.
  rewrite onClose_closed_form. cbn. intros Hin.
  apply list_elem_of_fmap in Hin as ([key req] & -> & Hin).
  apply list_elem_of_filter in Hin as [Hown Hin].
  apply elem_of_map_to_list in Hin. exists key, req. done.
Qed.

(** C4: the [close] listener.  Every Pending Request owned by the client's
    channel is removed from the Request Table, requests of other channels
    stay, and nothing else in the client changes.  The callbacks invoked
    are, one for each owned request and no others, [complete] when the
    client state is closed and [error] with "DataChannel closed
    prematurely" otherwise.  (The order in which [Object.entries] visits
    the table is not modelled, hence the permutation.) *)
Theorem onClose_settles_owned_requests (c : Client) :
  let remaining := filter (fun entry => ¬ owned c entry) (pendingRequests c) in
  let settled := snd <$> filter (owned c) (map_to_list (pendingRequests c)) in
  (onClose c).1 = with_pendingRequests remaining c
  ∧ (∀ key req, pendingRequests c !! key = Some req →
       if decide (dataChannel req = opts_dataChannel c)
       then remaining !! key = None ∧ req ∈ settled
       else remaining !! key = Some req)
  ∧ (state c = st_closed →
     (onClose c).2 ≡ₚ (fun req => CallComplete (callbacks req)) <$> settled)
  ∧ (state c ≠ st_closed →
     (onClose c).2
     ≡ₚ (fun req => CallError (callbacks req) "DataChannel closed prematurely")
          <$> settled).
Proof.
  intros remaining settled. rewrite onClose_closed_form. cbn [fst snd].
  split; [reflexivity|]. split; [|split].
  - intros key req Hlook. subst remaining settled. case_decide as Hown.
    + split.
      * apply map_lookup_filter_None. right. intros r Hr Hnot.
        rewrite Hlook in Hr. injection Hr as <-. by apply Hnot.
      * apply list_elem_of_fmap. exists (key, req). split; [done|].
        apply list_elem_of_filter. split; [done|]. by apply elem_of_map_to_list.
    + by apply map_lookup_filter_Some.
  - intros Hclosed. subst settled. rewrite <- list_fmap_compose.
    unfold settle. rewrite (bool_decide_eq_true_2 _ Hclosed). reflexivity.
  - intros Hopen. subst settled. rewrite <- list_fmap_compose.
    unfold settle. rewrite (bool_decide_eq_false_2 _ Hopen). reflexivity.
Qed.

(** [dispatch] touches nothing but the timer. *)
Lemma dispatch_cases (c : Client) :
  dispatch c = (c, []) ∨ dispatch c = (with_dispatchTimer true c, [SetTimeout]).
Proof.
  unfold dispatch.
  destruct (negb (bool_decide (state c = st_open)) || dispatchTimer c); auto.
Qed.

Lemma closeIfNoPending_cases (conn : Conn) (c : Client) :
  closeIfNoPending conn c
  = (c, if hasPendingRequests conn c then [] else [Close conn]).
Proof.
  unfold closeIfNoPending. destruct (hasPendingRequests conn c); reflexivity.
Qed.

(** C10: a response whose id is [null], or under whose id nothing is
    pending, is ignored.  [handleIncomingResponse] does nothing at all;
    the whole [message] listener leaves the client as it was (Request
    Table and Outgoing Queue included) and invokes no callback. *)
Theorem unmatched_response_is_ignored (data : TRPCResponseMessage) (c : Client) :
  (resp_id data = None
   ∨ ∃ id, resp_id data = Some id
           ∧ pendingRequests c !! property_key id = None) →
  handleIncomingResponse data c = (c, [])
  ∧ (onMessage (IncomingResponse data) c).1 = c
  ∧ Forall (fun e => is_callback e = false) (onMessage (IncomingResponse data) c).2.
Proof.
  intros Hunmatched.
  assert (Hignored : handleIncomingResponse data c = (c, [])).
  { unfold handleIncomingResponse.
    destruct Hunmatched as [-> | (id & -> & ->)]; reflexivity. }
  split; [exact Hignored|].
  unfold onMessage. rewrite Hignored.
  destruct (negb (bool_decide (opts_dataChannel c = activeConnection c))
            || bool_decide (state c = st_closed)).
  - rewrite closeIfNoPending_cases. cbn. split; [reflexivity|].
    destruct (hasPendingRequests (opts_dataChannel c) c); repeat constructor.
  - cbn. split; [reflexivity | constructor].
Qed.

(** C2, as the code has it: a response whose id matches a pending request
    bound to the active channel has [callbacks.next] invoked with it and,
    if its result type is [stopped], [callbacks.complete] after that.
    These calls are all that [handleIncomingResponse] and the whole
    [message] listener do: their own code leaves the client as it was, the
    Request Table included, so the pending request is not removed by
    them.  (What a callback does by calling back into the client, as the
    cancellation function called from it, is that call's doing.) *)
Theorem matched_response_invokes_callbacks
    (data : TRPCResponseMessage) (c : Client) (id : RequestId) (req : TRequest) :
  resp_id data = Some id →
  pendingRequests c !! property_key id = Some req →
  opts_dataChannel c = activeConnection c →
  dataChannel req = activeConnection c →
  let invoked :=
    CallNext (callbacks req) data
    :: (if is_stopped data then [CallComplete (callbacks req)] else []) in
  handleIncomingResponse data c = (c, invoked)
  ∧ onMessage (IncomingResponse data) c = (c, invoked).
Proof.
  intros Hid Hlook Hopts Hbound invoked.
  assert (Hhandled : handleIncomingResponse data c = (c, invoked)).
  { unfold handleIncomingResponse. rewrite Hid, Hlook.
    rewrite (bool_decide_eq_true_2 _ Hbound), (bool_decide_eq_true_2 _ Hopts).
    cbn. rewrite andb_true_r. reflexivity. }
  split; [exact Hhandled|].
  unfold onMessage. rewrite Hhandled.
  rewrite (bool_decide_eq_true_2 _ Hopts). cbn [negb orb].
  destruct (bool_decide (state c = st_closed)); [|reflexivity].
  rewrite closeIfNoPending_cases.
  assert (Hpending : hasPendingRequests (opts_dataChannel c) c = true).
  { apply hasPendingRequests_true. exists (property_key id), req.
    split; [exact Hlook | congruence]. }
  rewrite Hpending, app_nil_r. reflexivity.
Qed.

(** [request] files the request under its id, bound to the active
    connection, and puts its envelope last in the queue. *)
Lemma request_enqueues_last (op : Operation) (cb : TCallbacks) (c : Client) :
  outgoing (request op cb c).1
  = outgoing c
      ++ [RequestEnvelope (op_id op) (op_type op) (op_input op) (op_path op)]
  ∧ pendingRequests (request op cb c).1 !! property_key (op_id op)
    = Some (mkRequest (activeConnection c) (op_type op) cb op).
Proof.
  unfold request.
  match goal with
  | |- context [dispatch ?c1] => destruct (dispatch_cases c1) as [-> | ->]
  end; cbn; by rewrite lookup_insert_eq.
Qed.

(** C8: the flush timer.  On an open transport a queue of one envelope is
    sent as that envelope, a longer queue as one array frame in queue
    order, and the queue is empty afterwards.  On a transport that is not
    open nothing is sent and the queue is kept as it was. *)
Theorem dispatch_timeout_flush_policy
    (readyState : Conn → ReadyState) (c : Client) :
  (readyState (activeConnection c) = rs_open →
     (∀ msg, outgoing c = [msg] →
        (dispatch_timeout readyState c).2
        = [Send (activeConnection c) (ObjectFrame msg)])
     ∧ (1 < length (outgoing c) →
        (dispatch_timeout readyState c).2
        = [Send (activeConnection c) (ArrayFrame (outgoing c))])
     ∧ outgoing (dispatch_timeout readyState c).1 = [])
  ∧ (readyState (activeConnection c) ≠ rs_open →
     dispatch_timeout readyState c = (with_dispatchTimer false c, [])
     ∧ outgoing (dispatch_timeout readyState c).1 = outgoing c).
Proof.
  unfold dispatch_timeout. cbn [activeConnection with_dispatchTimer outgoing].
  split.
  - intros Hopen. rewrite (bool_decide_eq_true_2 _ Hopen). cbn [negb].
    split; [|split].
    + intros msg ->. reflexivity.
    + intros Hlen. cbn [snd].
      destruct (Nat.eqb_spec (length (outgoing c)) 1) as [Heq | Hne].
      * rewrite Heq in Hlen. lia.
      * reflexivity.
    + reflexivity.
  - intros Hopen. rewrite (bool_decide_eq_false_2 _ Hopen). cbn. done.
Qed.

Lemma filter_Forall_id {A : Type} (P : A → Prop) `{∀ x, Decision (P x)}
    (l : list A) :
  Forall P l → filter P l = l.
Proof.
  induction 1 as [|x l Hx Hl IH]; [reflexivity|].
  rewrite filter_cons_True by done. by rewrite IH.
Qed.

(** The cancellation function, in closed form.  [informs] tells whether a
    cancel envelope is enqueued; the timer is armed by the [dispatch] that
    follows it, if at all. *)
Lemma unsub_spec (readyState : Conn → ReadyState) (op : Operation) (c : Client) :
  let id := op_id op in
  let informs :=
    bool_decide (readyState (activeConnection c) = rs_open)
    && bool_decide (op_type op = subscription) in
  let completed :=
    match pendingRequests c !! property_key id with
    | Some req => [CallComplete (callbacks req)]
    | None => []
    end in
  ∃ armed timer,
    unsub readyState op c
    = (mkClient (opts_dataChannel c)
         (filter (fun msg => msg_id msg ≠ id) (outgoing c)
            ++ (if informs then [StopEnvelope id] else []))
         (delete (property_key id) (pendingRequests c))
         armed (state c) (activeConnection c),
       completed ++ timer)
    ∧ ((timer = [] ∧ armed = dispatchTimer c)
       ∨ (timer = [SetTimeout] ∧ armed = true ∧ informs = true)).
Proof.
  intros id informs completed. unfold unsub.
  cbn [activeConnection with_outgoing with_pendingRequests outgoing
       pendingRequests opts_dataChannel dispatchTimer state].
  fold id. fold informs.
  replace (match callbacks <$> pendingRequests c !! property_key id with
           | Some cb => [CallComplete cb]
           | None => []
           end) with completed
    by (subst completed; destruct (pendingRequests c !! property_key id);
        reflexivity).
  destruct informs eqn:Hinforms.
  - match goal with
    | |- context [dispatch ?c3] => destruct (dispatch_cases c3) as [-> | ->]
    end.
    + exists (dispatchTimer c), []. split; [reflexivity | by left].
    + exists true, [SetTimeout]. split; [reflexivity | by right].
  - exists (dispatchTimer c), []. rewrite !app_nil_r.
    split; [reflexivity | by left].
Qed.

(** C6, as the code has it: the first call of the cancellation function,
    made while the request is still pending.  The Pending Request is removed from the Request Table; every
    queued envelope with its id is withdrawn; [callbacks.complete] is the
    one callback invoked; and a [subscription.stop] envelope for the id is
    in the queue afterwards exactly when the operation is a subscription
    and the transport is open. *)
Theorem first_cancel_removes_and_completes
    (readyState : Conn → ReadyState) (op : Operation) (c : Client) (req : TRequest) :
  pendingRequests c !! property_key (op_id op) = Some req →
  let id := op_id op in
  let c' := (unsub readyState op c).1 in
  let effects := (unsub readyState op c).2 in
  pendingRequests c' = delete (property_key id) (pendingRequests c)
  ∧ pendingRequests c' !! property_key id = None
  ∧ outgoing c'
    = filter (fun msg => msg_id msg ≠ id) (outgoing c)
        ++ (if bool_decide (readyState (activeConnection c) = rs_open)
               && bool_decide (op_type op = subscription)
            then [StopEnvelope id] else [])
  ∧ (∃ timer, effects = CallComplete (callbacks req) :: timer
              ∧ Forall (fun e => is_callback e = false) timer)
  ∧ (StopEnvelope id ∈ outgoing c'
     ↔ readyState (activeConnection c) = rs_open ∧ op_type op = subscription).
Proof.
  intros Hlook id c' effects.
  destruct (unsub_spec readyState op c) as (armed & timer & Hunsub & Htimer).
  subst c' effects. rewrite Hunsub. fold id in Hlook |- *. rewrite Hlook.
  cbn [fst snd pendingRequests outgoing].
  split; [reflexivity|]. split; [apply lookup_delete_eq|].
  split; [reflexivity|]. split.
  - exists timer. split; [reflexivity|].
    destruct Htimer as [[-> _] | (-> & _ & _)]; repeat constructor.
  - rewrite elem_of_app, list_elem_of_filter. split.
    + intros [[Hne _] | Hin]; [by destruct Hne|].
      destruct (bool_decide (readyState (activeConnection c) = rs_open)
                && bool_decide (op_type op = subscription)) eqn:Hinforms.
      * apply andb_true_iff in Hinforms as [H1 H2].
        split; by eapply bool_decide_eq_true_1.
      * by apply elem_of_nil in Hin.
    + intros [Hopen Hsub]. right.
      rewrite (bool_decide_eq_true_2 _ Hopen), (bool_decide_eq_true_2 _ Hsub).
      cbn. apply elem_of_cons. by left.
Qed.

(** A call of the cancellation function when nothing is pending under the
    id: no callback is invoked and the Request Table is unchanged; when no
    cancel envelope is due and none with the id is queued, the call
    changes nothing. *)
Lemma unsub_nothing_pending
    (readyState : Conn → ReadyState) (op : Operation) (c : Client) :
  pendingRequests c !! property_key (op_id op) = None →
  let id := op_id op in
  let informs :=
    bool_decide (readyState (activeConnection c) = rs_open)
    && bool_decide (op_type op = subscription) in
  let c' := (unsub readyState op c).1 in
  let effects := (unsub readyState op c).2 in
  pendingRequests c' = pendingRequests c
  ∧ Forall (fun e => is_callback e = false) effects
  ∧ outgoing c'
    = filter (fun msg => msg_id msg ≠ id) (outgoing c)
        ++ (if informs then [StopEnvelope id] else [])
  ∧ (informs = false →
     Forall (fun msg => msg_id msg ≠ id) (outgoing c) →
     c' = c ∧ effects = []).
Proof.
  intros Hlook id informs c' effects.
  destruct (unsub_spec readyState op c) as (armed & timer & Hunsub & Htimer).
  subst c' effects. rewrite Hunsub. fold id in Hlook |- *. fold informs in Htimer |- *.
  rewrite Hlook. cbn [fst snd pendingRequests outgoing app].
  split; [by apply delete_id|]. split.
  { destruct Htimer as [[-> _] | (-> & _ & _)]; repeat constructor. }
  split; [reflexivity|].
  intros Hinforms Hqueue.
  destruct Htimer as [[-> ->] | (_ & _ & Htrue)]; [|congruence].
  rewrite Hinforms, app_nil_r, filter_Forall_id, delete_id by done.
  destruct c. done.
Qed.

(** The first call leaves nothing pending under the id, so that the
    statement above applies to every later call. *)
Lemma unsub_leaves_nothing_pending
    (readyState : Conn → ReadyState) (op : Operation) (c : Client) :
  pendingRequests (unsub readyState op c).1 !! property_key (op_id op) = None.
Proof.
  destruct (unsub_spec readyState op c) as (armed & timer & -> & _).
  cbn. apply lookup_delete_eq.
Qed.

(** The cancellation function never closes a transport: it makes no
    "no pending requests" check. *)
Lemma unsub_never_closes
    (readyState : Conn → ReadyState) (op : Operation) (c : Client) (conn : Conn) :
  Close conn ∉ (unsub readyState op c).2.
Proof.
  destruct (unsub_spec readyState op c) as (armed & timer & -> & Htimer).
  cbn [snd]. rewrite elem_of_app. intros [Hin | Hin].
  - destruct (pendingRequests c !! property_key (op_id op)); absurd_member Hin.
  - destruct Htimer as [[-> _] | (-> & _ & _)]; absurd_member Hin.
Qed.

(** What [handleIncomingResponse] can change: only the owner recorded in
    the matched entry, re-bound to the active connection.  It never closes
    the client's own channel. *)
Lemma handleIncomingResponse_frame (data : TRPCResponseMessage) (c : Client) :
  ∃ m handled,
    handleIncomingResponse data c = (with_pendingRequests m c, handled)
    ∧ (Close (opts_dataChannel c) ∉ handled)
    ∧ (bound_to_active c → m = pendingRequests c)
    ∧ (∀ key, is_Some (m !! key) ↔ is_Some (pendingRequests c !! key)).
Proof.
  unfold handleIncomingResponse.
  destruct (resp_id data) as [id|]; cycle 1.
  { exists (pendingRequests c), []. rewrite with_pendingRequests_id.
    split; [done|]. split; [apply not_elem_of_nil|]. done. }
  destruct (pendingRequests c !! property_key id) as [req|] eqn:Hlook; cycle 1.
  { exists (pendingRequests c), []. rewrite with_pendingRequests_id.
    split; [done|]. split; [apply not_elem_of_nil|]. done. }
  destruct (decide (dataChannel req = activeConnection c)) as [Hbound | Hstale].
  - rewrite (bool_decide_eq_true_2 _ Hbound). cbn [negb andb].
    eexists (pendingRequests c), _. rewrite with_pendingRequests_id.
    split; [reflexivity|]. split; [|done].
    destruct (is_stopped data
              && bool_decide (opts_dataChannel c = activeConnection c));
      cbn; rewrite ?elem_of_cons, elem_of_nil; intuition congruence.
  - rewrite (bool_decide_eq_false_2 _ Hstale). cbn [negb andb].
    destruct (decide (opts_dataChannel c = activeConnection c)) as [Hopts | Hopts].
    + rewrite (bool_decide_eq_true_2 _ Hopts). rewrite closeIfNoPending_cases.
      eexists _, _. split; [reflexivity|]. split; [|split].
      * rewrite andb_true_r.
        match goal with
        | |- context [hasPendingRequests ?conn ?c1] =>
            destruct (hasPendingRequests conn c1)
        end;
          destruct (is_stopped data); cbn;
          rewrite ?elem_of_cons, elem_of_nil; intros H;
          repeat (destruct H as [H | H]; try discriminate);
          try done; injection H as H; congruence.
      * intros [_ Hall]. exfalso. apply Hstale. exact (Hall _ _ Hlook).
      * intros key. destruct (decide (property_key id = key)) as [<- | Hne].
        -- rewrite lookup_insert_eq, Hlook. split; eauto.
        -- by rewrite lookup_insert_ne.
    + rewrite (bool_decide_eq_false_2 _ Hopts).
      eexists (pendingRequests c), _. rewrite with_pendingRequests_id.
      split; [reflexivity|]. split; [|done].
      rewrite andb_false_r. cbn.
      rewrite ?elem_of_cons, elem_of_nil. intuition congruence.
Qed.

(** C7, as the code has it.  [close()] sets the state to closed and closes
    the active transport at once exactly when no pending request is bound
    to it.  While the state is closed, every incoming message (as parsed
    by the listener) re-checks: the listener closes the client's channel
    exactly when no pending request is bound to it once the message is
    handled.  The state stays closed under every event but [open]; the
    [open] listener sets it to open whatever it was, and from then on a
    response is not followed by a re-check and closes nothing.  The
    cancellation function makes no such check and closes nothing. *)
Theorem close_rechecks_on_incoming_messages :
  (∀ c : Client,
     close c
     = (with_state st_closed c,
        if hasPendingRequests (activeConnection c) c then []
        else [Close (activeConnection c)]))
  ∧ (∀ (msg : TRPCClientIncomingMessage) (c : Client),
       state c = st_closed →
       state (onMessage msg c).1 = st_closed
       ∧ (Close (opts_dataChannel c) ∈ (onMessage msg c).2
          ↔ hasPendingRequests (opts_dataChannel c) (onMessage msg c).1 = false))
  ∧ (∀ (readyState : Conn → ReadyState) (op : Operation) (c : Client) (conn : Conn),
       Close conn ∉ (unsub readyState op c).2)
  ∧ (∀ (ev : Event) (c : Client),
       state c = st_closed → ev ≠ EvOpen → state (deliver ev c).1 = st_closed)
  ∧ (∀ c : Client,
       opts_dataChannel c = activeConnection c → state (onOpen c).1 = st_open)
  ∧ (∀ (data : TRPCResponseMessage) (c : Client),
       opts_dataChannel c = activeConnection c → state c ≠ st_closed →
       Close (opts_dataChannel c) ∉ (onMessage (IncomingResponse data) c).2).
Proof.
  split; [|split; [|split; [|split; [|split]]]].
  - intros c. unfold close. rewrite closeIfNoPending_cases. reflexivity.
  - intros msg c Hclosed.
    assert (Hhandler : ∃ m handled,
      match msg with
      | IncomingRequest method => handleIncomingRequest method c
      | IncomingResponse data => handleIncomingResponse data c
      end = (with_pendingRequests m c, handled)
      ∧ Close (opts_dataChannel c) ∉ handled).
    { destruct msg as [method | data].
      - exists (pendingRequests c), []. rewrite with_pendingRequests_id.
        split; [|apply not_elem_of_nil].
        unfold handleIncomingRequest. rewrite Hclosed.
        destruct (String.eqb method "reconnect"
                  && bool_decide (opts_dataChannel c = activeConnection c));
          reflexivity.
      - destruct (handleIncomingResponse_frame data c)
          as (m & handled & Heq & Hno & _).
        eauto. }
    destruct Hhandler as (m & handled & Heq & Hno).
    unfold onMessage. rewrite Heq.
    cbn [state opts_dataChannel activeConnection with_pendingRequests].
    rewrite (bool_decide_eq_true_2 _ Hclosed), orb_true_r.
    rewrite closeIfNoPending_cases.
    cbn [fst snd state with_pendingRequests opts_dataChannel].
    split; [exact Hclosed|].
    destruct (hasPendingRequests (opts_dataChannel c) (with_pendingRequests m c)).
    + rewrite app_nil_r. split; [done | discriminate].
    + split; [done|]. intros _. rewrite elem_of_app, elem_of_cons. auto.
  - apply unsub_never_closes.
  - intros ev c Hclosed Hev.
    destruct ev as [| msg | | rs | op cb | rs op |]; cbn [deliver]; [done|..].
    + assert (Hhandler : ∃ m handled,
        match msg with
        | IncomingRequest method => handleIncomingRequest method c
        | IncomingResponse data => handleIncomingResponse data c
        end = (with_pendingRequests m c, handled)).
      { destruct msg as [method | data].
        - exists (pendingRequests c), []. rewrite with_pendingRequests_id.
          unfold handleIncomingRequest. rewrite Hclosed.
          destruct (String.eqb method "reconnect"
                    && bool_decide (opts_dataChannel c = activeConnection c));
            reflexivity.
        - destruct (handleIncomingResponse_frame data c)
            as (m & handled & Heq & _).
          eauto. }
      destruct Hhandler as (m & handled & Heq).
      unfold onMessage. rewrite Heq.
      match goal with
      | |- context [if ?b then _ else _] => destruct b
      end; [|done].
      by rewrite closeIfNoPending_cases.
    + by rewrite onClose_closed_form.
    + unfold dispatch_timeout.
      match goal with
      | |- context [if ?b then _ else _] => destruct b
      end; done.
    + unfold request.
      match goal with
      | |- context [dispatch ?c1] => destruct (dispatch_cases c1) as [-> | ->]
      end; done.
    + by destruct (unsub_spec rs op c) as (armed & timer & -> & _).
    + unfold close. by rewrite closeIfNoPending_cases.
  - intros c Hopts. unfold onOpen.
    rewrite (bool_decide_eq_true_2 _ Hopts). cbn [negb].
    match goal with
    | |- context [dispatch ?c1] => destruct (dispatch_cases c1) as [-> | ->]
    end; reflexivity.
  - intros data c Hopts Hstate.
    destruct (handleIncomingResponse_frame data c)
      as (m & handled & Heq & Hno & _).
    unfold onMessage. rewrite Heq.
    cbn [state opts_dataChannel activeConnection with_pendingRequests].
    rewrite (bool_decide_eq_true_2 _ Hopts), (bool_decide_eq_false_2 _ Hstate).
    exact Hno.
Qed.

(** *** Calling the cancellation function again *)

(** Once nothing is pending under a key, it stays so until a request is
    filed under that key again. *)
Lemma deliver_keeps_absent (ev : Event) (c : Client) (id : RequestId) :
  pendingRequests c !! property_key id = None →
  ¬ involves id ev →
  pendingRequests (deliver ev c).1 !! property_key id = None.
Proof.
  intros Habsent Hfresh. set (key := property_key id) in *.
  destruct ev as [| msg | | rs | op cb | rs op |]; cbn [deliver].
  - unfold onOpen.
    destruct (negb (bool_decide (opts_dataChannel c = activeConnection c)));
      [done|].
    match goal with
    | |- context [dispatch ?c1] => destruct (dispatch_cases c1) as [-> | ->]
    end; done.
  - assert (Hhandler : ∃ m handled,
      match msg with
      | IncomingRequest method => handleIncomingRequest method c
      | IncomingResponse data => handleIncomingResponse data c
      end = (with_pendingRequests m c, handled) ∧ m !! key = None).
    { destruct msg as [method | data].
      - exists (pendingRequests c). rewrite with_pendingRequests_id.
        unfold handleIncomingRequest.
        destruct (String.eqb method "reconnect"
                  && bool_decide (opts_dataChannel c = activeConnection c));
          [|by eauto].
        destruct (bool_decide (state c = st_open)); [|by eauto].
        rewrite closeIfNoPending_cases. by eauto.
      - destruct (handleIncomingResponse_frame data c)
          as (m & handled & Heq & _ & _ & Hdom).
        exists m, handled. split; [done|].
        apply eq_None_not_Some. rewrite Hdom, Habsent. by intros [? ?]. }
    destruct Hhandler as (m & handled & Heq & Hm).
    unfold onMessage. rewrite Heq.
    match goal with
    | |- context [if ?b then _ else _] => destruct b
    end; [|done].
    by rewrite closeIfNoPending_cases.
  - rewrite onClose_closed_form. cbn.
    apply map_lookup_filter_None. by left.
  - unfold dispatch_timeout.
    match goal with
    | |- context [if ?b then _ else _] => destruct b
    end; done.
  - unfold request.
    match goal with
    | |- context [dispatch ?c1] => destruct (dispatch_cases c1) as [-> | ->]
    end; cbn; rewrite lookup_insert_ne; done.
  - destruct (unsub_spec rs op c) as (armed & timer & -> & _). cbn.
    apply lookup_delete_None. by right.
  - unfold close. by rewrite closeIfNoPending_cases.
Qed.

Lemma Forall_filter_keeps {A : Type} (P Q : A → Prop) `{∀ x, Decision (Q x)}
    (l : list A) :
  Forall P l → Forall P (filter Q l).
Proof.
  rewrite !Forall_forall. intros Hall x Hin.
  apply list_elem_of_filter in Hin as [_ Hin]. by apply Hall.
Qed.

(** No envelope with the id enters the queue unless an event involves
    the id. *)
Lemma deliver_keeps_unqueued (ev : Event) (c : Client) (id : RequestId) :
  Forall (fun msg => msg_id msg ≠ id) (outgoing c) →
  ¬ involves id ev →
  Forall (fun msg => msg_id msg ≠ id) (outgoing (deliver ev c).1).
Proof.
  intros Hqueue Hfresh.
  destruct ev as [| msg | | rs | op cb | rs op |]; cbn [deliver].
  - unfold onOpen.
    destruct (negb (bool_decide (opts_dataChannel c = activeConnection c)));
      [done|].
    match goal with
    | |- context [dispatch ?c1] => destruct (dispatch_cases c1) as [-> | ->]
    end; done.
  - assert (Hhandler : ∃ m handled,
      match msg with
      | IncomingRequest method => handleIncomingRequest method c
      | IncomingResponse data => handleIncomingResponse data c
      end = (with_pendingRequests m c, handled)).
    { destruct msg as [method | data].
      - exists (pendingRequests c). rewrite with_pendingRequests_id.
        unfold handleIncomingRequest.
        destruct (String.eqb method "reconnect"
                  && bool_decide (opts_dataChannel c = activeConnection c));
          [|by eauto].
        destruct (bool_decide (state c = st_open)); [|by eauto].
        rewrite closeIfNoPending_cases. by eauto.
      - destruct (handleIncomingResponse_frame data c)
          as (m & handled & Heq & _).
        by eauto. }
    destruct Hhandler as (m & handled & Heq).
    unfold onMessage. rewrite Heq.
    match goal with
    | |- context [if ?b then _ else _] => destruct b
    end; [|done].
    by rewrite closeIfNoPending_cases.
  - by rewrite onClose_closed_form.
  - unfold dispatch_timeout.
    match goal with
    | |- context [if ?b then _ else _] => destruct b
    end; [done | constructor].
  - unfold request.
    match goal with
    | |- context [dispatch ?c1] => destruct (dispatch_cases c1) as [-> | ->]
    end; cbn; (apply Forall_app; split; [done|]);
      repeat constructor; cbn in *; congruence.
  - destruct (unsub_spec rs op c) as (armed & timer & -> & _). cbn.
    apply Forall_app. split; [by apply Forall_filter_keeps|].
    match goal with
    | |- context [if ?b then _ else _] => destruct b
    end; repeat constructor; cbn in *; congruence.
  - unfold close. by rewrite closeIfNoPending_cases.
Qed.

Lemma run_keeps_absent (evs : list Event) (c : Client) (id : RequestId) :
  Forall (fun ev => ¬ involves id ev) evs →
  pendingRequests c !! property_key id = None →
  pendingRequests (run evs c).1 !! property_key id = None.
Proof.
  intros Hevs. revert c.
  induction Hevs as [|ev evs Hev Hevs IH]; intros c Habsent; [done|].
  cbn [run]. pose proof (deliver_keeps_absent ev c id Habsent Hev) as Hstep.
  destruct (deliver ev c) as [c1 effects1]. cbn in Hstep.
  specialize (IH c1 Hstep). destruct (run evs c1) as [c2 effects2]. done.
Qed.

Lemma run_keeps_unqueued (evs : list Event) (c : Client) (id : RequestId) :
  Forall (fun ev => ¬ involves id ev) evs →
  Forall (fun msg => msg_id msg ≠ id) (outgoing c) →
  Forall (fun msg => msg_id msg ≠ id) (outgoing (run evs c).1).
Proof.
  intros Hevs. revert c.
  induction Hevs as [|ev evs Hev Hevs IH]; intros c Hqueue; [done|].
  cbn [run]. pose proof (deliver_keeps_unqueued ev c id Hqueue Hev) as Hstep.
  destruct (deliver ev c) as [c1 effects1]. cbn in Hstep.
  specialize (IH c1 Hstep). destruct (run evs c1) as [c2 effects2]. done.
Qed.

(** What the cancellation function does to its collaborators: [complete]
    of the pending request, if there is one, and the timer, which the
    [dispatch] after a cancel envelope arms if the client state is open
    and none is armed. *)
Lemma unsub_effects (readyState : Conn → ReadyState) (op : Operation) (c : Client) :
  (unsub readyState op c).2
  = match pendingRequests c !! property_key (op_id op) with
    | Some req => [CallComplete (callbacks req)]
    | None => []
    end
    ++ (if bool_decide (readyState (activeConnection c) = rs_open)
           && bool_decide (op_type op = subscription)
           && bool_decide (state c = st_open) && negb (dispatchTimer c)
        then [SetTimeout] else []).
Proof.
  unfold unsub, dispatch.
  cbn [activeConnection with_outgoing with_pendingRequests outgoing
       pendingRequests opts_dataChannel dispatchTimer state].
  destruct (pendingRequests c !! property_key (op_id op)) as [req|];
    destruct (bool_decide (readyState (activeConnection c) = rs_open));
    destruct (bool_decide (op_type op = subscription));
    destruct (bool_decide (state c = st_open));
    destruct (dispatchTimer c); reflexivity.
Qed.

(** C5, as the code has it: the cancellation function called again after a
    first call, whatever happened in between that did not involve the id
    (all ids being strings or safe integers, so that their keys are those
    of JavaScript).  The later call invokes no callback and leaves the
    Request Table unchanged.  For a query or a mutation it changes nothing
    at all.  On a transport that is not open it leaves no cancel envelope
    in the queue; for a subscription on an open transport it enqueues a
    [subscription.stop] envelope once more.  Its only effect is then to
    arm the flush timer, which it does if the client state is open and no
    timer is armed; otherwise, as after [close()], it has no effect and
    the envelope waits in the queue. *)
Theorem repeated_cancel_behaviour
    (readyState1 readyState2 : Conn → ReadyState) (op : Operation) (c : Client)
    (evs : list Event) :
  exact_key (op_id op) = true →
  Forall (fun ev => exact_ids ev = true) evs →
  Forall (fun ev => ¬ involves (op_id op) ev) evs →
  let c2 := (run evs (unsub readyState1 op c).1).1 in
  let c3 := (unsub readyState2 op c2).1 in
  let effects := (unsub readyState2 op c2).2 in
  pendingRequests c3 = pendingRequests c2
  ∧ Forall (fun e => is_callback e = false) effects
  ∧ (op_type op ≠ subscription → c3 = c2 ∧ effects = [])
  ∧ (readyState2 (activeConnection c2) ≠ rs_open →
     StopEnvelope (op_id op) ∉ outgoing c3)
  ∧ (op_type op = subscription → readyState2 (activeConnection c2) = rs_open →
     StopEnvelope (op_id op) ∈ outgoing c3)
  ∧ effects
    = (if bool_decide (readyState2 (activeConnection c2) = rs_open)
          && bool_decide (op_type op = subscription)
          && bool_decide (state c2 = st_open) && negb (dispatchTimer c2)
       then [SetTimeout] else []).
Proof.
  intros _ _ Hevs c2 c3 effects.
  assert (Habsent : pendingRequests c2 !! property_key (op_id op) = None).
  { apply run_keeps_absent; [done|]. apply unsub_leaves_nothing_pending. }
  destruct (unsub_nothing_pending readyState2 op c2 Habsent)
    as (Htable & Hcalls & Hqueue & Hnoop).
  fold c3 in Htable, Hqueue, Hnoop. fold effects in Hcalls, Hnoop.
  split; [done|]. split; [done|]. split; [|split; [|split]].
  - intros Hkind. apply Hnoop.
    + rewrite (bool_decide_eq_false_2 _ Hkind). apply andb_false_r.
    + apply run_keeps_unqueued; [done|].
      destruct (unsub_spec readyState1 op c) as (armed & timer & -> & _).
      cbn. rewrite (bool_decide_eq_false_2 _ Hkind), andb_false_r, app_nil_r.
      apply Forall_forall. intros msg Hin.
      by apply list_elem_of_filter in Hin as [Hne _].
  - intros Hclosed. rewrite Hqueue.
    rewrite (bool_decide_eq_false_2 _ Hclosed). cbn. rewrite app_nil_r.
    intros Hin. apply list_elem_of_filter in Hin as [Hne _]. by apply Hne.
  - intros Hkind Hopen. rewrite Hqueue.
    rewrite (bool_decide_eq_true_2 _ Hkind), (bool_decide_eq_true_2 _ Hopen).
    cbn. apply elem_of_app. right. apply elem_of_cons. by left.
  - subst effects. rewrite unsub_effects, Habsent. reflexivity.
Qed.


(** *** Ownership invariant *)

Lemma bound_to_active_ext (c c' : Client) :
  opts_dataChannel c' = opts_dataChannel c →
  activeConnection c' = activeConnection c →
  pendingRequests c' = pendingRequests c →
  bound_to_active c → bound_to_active c'.
Proof. unfold bound_to_active. intros -> -> ->. done. Qed.

Lemma dispatch_bound (c : Client) :
  bound_to_active c → bound_to_active (dispatch c).1.
Proof.
  destruct (dispatch_cases c) as [-> | ->]; [done|].
  by apply bound_to_active_ext.
Qed.

Lemma createDataChannelClient_bound (dataChannel : Conn) (readyState : ReadyState) :
  bound_to_active (createDataChannelClient dataChannel readyState).1.
Proof.
  assert (Hinit : bound_to_active
            (mkClient dataChannel [] ∅ false st_connecting dataChannel))
    by (split; [done | apply map_Forall_empty]).
  unfold createDataChannelClient.
  destruct (bool_decide (readyState = rs_open)); [|exact Hinit].
  unfold onOpen. cbn [opts_dataChannel activeConnection].
  rewrite bool_decide_eq_true_2 by done. cbn [negb].
  match goal with
  | |- context [dispatch ?c1] =>
      pose proof (dispatch_bound c1) as Hd; destruct (dispatch c1)
  end.
  apply Hd. by apply (bound_to_active_ext (mkClient dataChannel [] ∅ false st_connecting dataChannel)).
Qed.

(** No handler breaks the binding of pending requests to the active
    connection. *)
Lemma deliver_bound (ev : Event) (c : Client) :
  bound_to_active c → bound_to_active (deliver ev c).1.
Proof.
  intros Hbound. destruct ev as [| msg | | rs | op cb | rs op |]; cbn [deliver].
  - unfold onOpen.
    destruct (negb (bool_decide (opts_dataChannel c = activeConnection c)));
      [done|].
    apply dispatch_bound. by apply (bound_to_active_ext c).
  - assert (Hhandler :
      match msg with
      | IncomingRequest method => handleIncomingRequest method c
      | IncomingResponse data => handleIncomingResponse data c
      end.1 = c).
    { destruct msg as [method | data].
      - unfold handleIncomingRequest.
        destruct (String.eqb method "reconnect"
                  && bool_decide (opts_dataChannel c = activeConnection c));
          [|done].
        destruct (bool_decide (state c = st_open)); [|done].
        by rewrite closeIfNoPending_cases.
      - destruct (handleIncomingResponse_frame data c)
          as (m & handled & -> & _ & Hm & _).
        rewrite (Hm Hbound). apply with_pendingRequests_id. }
    unfold onMessage.
    destruct (match msg with
              | IncomingRequest method => handleIncomingRequest method c
              | IncomingResponse data => handleIncomingResponse data c
              end) as [c1 handled].
    cbn in Hhandler. subst c1.
    destruct (negb (bool_decide (opts_dataChannel c = activeConnection c))
              || bool_decide (state c = st_closed)); [|done].
    by rewrite closeIfNoPending_cases.
  - rewrite onClose_closed_form. cbn [fst].
    destruct Hbound as [Hopts Hall]. split; [done|].
    cbn [pendingRequests with_pendingRequests activeConnection].
    intros key req Hlook. apply map_lookup_filter_Some in Hlook as [Hlook _].
    exact (Hall key req Hlook).
  - unfold dispatch_timeout.
    cbn [activeConnection with_dispatchTimer].
    destruct (negb (bool_decide (rs (activeConnection c) = rs_open)));
      by apply (bound_to_active_ext c).
  - unfold request. apply dispatch_bound.
    destruct Hbound as [Hopts Hall]. split; [done|].
    cbn [pendingRequests with_pendingRequests with_outgoing activeConnection].
    by apply map_Forall_insert_2.
  - destruct (unsub_spec rs op c) as (armed & timer & -> & _).
    destruct Hbound as [Hopts Hall]. split; [done|].
    by apply map_Forall_delete.
  - unfold close. rewrite closeIfNoPending_cases.
    by apply (bound_to_active_ext c).
Qed.

Lemma run_bound (evs : list Event) (c : Client) :
  bound_to_active c → bound_to_active (run evs c).1.
Proof.
  revert c. induction evs as [|ev evs IH]; intros c Hbound; [done|].
  cbn [run]. pose proof (deliver_bound ev c Hbound) as Hstep.
  destruct (deliver ev c) as [c1 effects1]. cbn in Hstep.
  specialize (IH c1 Hstep). destruct (run evs c1) as [c2 effects2]. done.
Qed.

(** Every state a client can reach satisfies the two side conditions of
    the statement on matched responses. *)
Lemma reachable_bound (dataChannel : Conn) (readyState : ReadyState)
    (evs : list Event) :
  bound_to_active
    (run evs (createDataChannelClient dataChannel readyState).1).1.
Proof. apply run_bound, createDataChannelClient_bound. Qed.

End LinkProperties.

Section LinkScenarios.

Import Link Scenario.

(** The [stopped] response of the pending subscription. *)
Lemma matched_response_invokes_callbacks_witness :
  handleIncomingResponse stopped_1 subscribed
  = (subscribed, [CallNext 10 stopped_1; CallComplete 10])
  ∧ onMessage (IncomingResponse stopped_1) subscribed
    = (subscribed, [CallNext 10 stopped_1; CallComplete 10]).
Proof.
  apply (matched_response_invokes_callbacks stopped_1 subscribed (IdNumber 1)
           (mkRequest 0 subscription 10 op_sub));
    vm_compute; reflexivity.
Defined.

(** C2 as stated fails: the subscription of [subscribed] receives its
    [stopped] response and is still in the Request Table after the
    [message] listener has run. *)
Lemma stopped_response_leaves_request_pending :
  ¬ (∀ (data : TRPCResponseMessage) (c : Client) (id : RequestId) (req : TRequest),
       resp_id data = Some id →
       pendingRequests c !! property_key id = Some req →
       is_stopped data = true →
       pendingRequests (onMessage (IncomingResponse data) c).1
         !! property_key id = None).
Proof.
  intros Hclaim.
  specialize (Hclaim stopped_1 subscribed (IdNumber 1)
                (mkRequest 0 subscription 10 op_sub)
                eq_refl eq_refl eq_refl).
  vm_compute in Hclaim. discriminate.
Qed.

(** An unsolicited error report reaches no callback. *)
Lemma unmatched_response_is_ignored_witness :
  handleIncomingResponse unsolicited subscribed = (subscribed, [])
  ∧ (onMessage (IncomingResponse unsolicited) subscribed).1 = subscribed
  ∧ Forall (fun e => is_callback e = false)
      (onMessage (IncomingResponse unsolicited) subscribed).2.
Proof.
  apply (unmatched_response_is_ignored unsolicited subscribed).
  left. reflexivity.
Defined.

(** The first cancellation of the pending subscription, transport open. *)
Lemma first_cancel_removes_and_completes_witness :
  pendingRequests (unsub all_open op_sub subscribed).1 = ∅
  ∧ outgoing (unsub all_open op_sub subscribed).1 = [StopEnvelope (IdNumber 1)]
  ∧ (unsub all_open op_sub subscribed).2 = [CallComplete 10; SetTimeout].
Proof.
  pose proof (first_cancel_removes_and_completes all_open op_sub subscribed
                (mkRequest 0 subscription 10 op_sub) eq_refl)
    as (Htable & _ & Hqueue & _ & _).
  split; [|split].
  - rewrite Htable. vm_compute. reflexivity.
  - rewrite Hqueue. vm_compute. reflexivity.
  - vm_compute. reflexivity.
Defined.

(** C6 as stated fails: the subscription of [op_sub] is requested and
    flushed, and the channel closes.  The [close] listener settles the
    request and takes it out of the Request Table, so the first call of
    the cancellation function, which the link makes from its [error]
    callback, invokes no [complete]. *)
Lemma first_cancel_after_close_completes_nothing :
  ¬ (∀ (readyState : Conn → ReadyState) (op : Operation) (cb : TCallbacks)
       (c : Client) (evs : list Event),
       Forall (fun ev => ¬ involves (op_id op) ev) evs →
       CallComplete cb
       ∈ (unsub readyState op (run (EvRequest op cb :: evs) c).1).2).
Proof.
  intros Hclaim.
  assert (Hcomplete :
    CallComplete 10
    ∈ (unsub all_closed op_sub
         (run [EvRequest op_sub 10; EvTimeout all_open; EvClose] client_0).1).2).
  { apply Hclaim. repeat constructor; cbn; tauto. }
  vm_compute in Hcomplete. absurd_member Hcomplete.
Qed.

(** The run behind it: the only callback invoked is the [error] of the
    [close] listener, and the cancellation that follows does nothing. *)
Lemma premature_close_then_cancel_run :
  (run [EvRequest op_sub 10; EvTimeout all_open; EvClose;
        EvCancel all_closed op_sub] client_0).2
  = [Send 0 (ObjectFrame
               (RequestEnvelope (IdNumber 1) subscription
                  (JObject [("channel", JString "test")]) "testSubscription"));
     CallError 10 "DataChannel closed prematurely"].
Proof. vm_compute. reflexivity. Qed.

(** The second cancellation of that subscription, after a flush. *)
Lemma repeated_cancel_behaviour_witness :
  pendingRequests (unsub all_open op_sub cancelled).1 = pendingRequests cancelled
  ∧ Forall (fun e => is_callback e = false) (unsub all_open op_sub cancelled).2
  ∧ StopEnvelope (IdNumber 1) ∈ outgoing (unsub all_open op_sub cancelled).1
  ∧ (unsub all_open op_sub cancelled).2 = [SetTimeout].
Proof.
  pose proof (repeated_cancel_behaviour all_open all_open op_sub subscribed
                [EvTimeout all_open]) as Hagain.
  destruct Hagain as (Htable & Hcalls & _ & _ & Hstop & Heffects).
  - reflexivity.
  - repeat constructor.
  - repeat constructor. cbn. tauto.
  - split; [exact Htable|]. split; [exact Hcalls|].
    split; [apply Hstop; reflexivity|].
    etrans; [exact Heffects | vm_compute; reflexivity].
Defined.

(** C5 as stated fails: with only flushes of the timer between the two
    calls, the second call of the cancellation function of a subscription
    on an open transport changes the client. *)
Lemma second_cancel_is_not_a_no_op :
  ¬ (∀ (readyState : Conn → ReadyState) (op : Operation) (cb : TCallbacks)
       (c : Client),
       let c1 := (run [EvRequest op cb; EvTimeout readyState;
                       EvCancel readyState op; EvTimeout readyState] c).1 in
       unsub readyState op c1 = (c1, [])).
Proof.
  intros Hclaim. specialize (Hclaim all_open op_sub 10 client_0).
  cbv zeta in Hclaim. apply (f_equal snd) in Hclaim.
  vm_compute in Hclaim. discriminate.
Qed.

(** What the second call does there: the queue was empty and holds a
    cancel envelope again, which the next flush sends as a second
    [subscription.stop] frame. *)
Lemma second_cancel_sends_second_stop :
  outgoing cancelled = []
  ∧ outgoing (unsub all_open op_sub cancelled).1 = [StopEnvelope (IdNumber 1)]
  ∧ (run [EvRequest op_sub 10; EvTimeout all_open;
          EvCancel all_open op_sub; EvTimeout all_open;
          EvCancel all_open op_sub; EvTimeout all_open] client_0).2
    = [Send 0 (ObjectFrame
                 (RequestEnvelope (IdNumber 1) subscription
                    (JObject [("channel", JString "test")]) "testSubscription"));
       CallComplete 10; SetTimeout;
       Send 0 (ObjectFrame (StopEnvelope (IdNumber 1)));
       SetTimeout;
       Send 0 (ObjectFrame (StopEnvelope (IdNumber 1)))].
Proof. repeat split; vm_compute; reflexivity. Qed.

(** C7 as stated fails: after [close()] with one request pending, the
    cancellation of that request leaves no request bound to the transport
    and the transport is not closed. *)
Lemma cancel_after_close_does_not_close :
  ¬ (∀ (readyState : Conn → ReadyState) (op : Operation) (c : Client),
       state c = st_closed →
       hasPendingRequests (activeConnection c) (unsub readyState op c).1 = false →
       Close (activeConnection c) ∈ (unsub readyState op c).2).
Proof.
  intros Hclaim.
  specialize (Hclaim all_open op_sub (close subscribed).1 eq_refl eq_refl).
  vm_compute in Hclaim. absurd_member Hclaim.
Qed.

(** The run behind it: request, flush, [close()], cancel.  No transport
    is ever closed, and at the end the state is closed with nothing
    pending. *)
Lemma close_then_cancel_run :
  let result := run [EvRequest op_sub 10; EvTimeout all_open; EvCloseCall;
                     EvCancel all_open op_sub] client_0 in
  state result.1 = st_closed
  ∧ pendingRequests result.1 = ∅
  ∧ result.2
    = [Send 0 (ObjectFrame
                 (RequestEnvelope (IdNumber 1) subscription
                    (JObject [("channel", JString "test")]) "testSubscription"));
       CallComplete 10].
Proof. repeat split; vm_compute; reflexivity. Qed.

(** [close()] on a channel that is still connecting: the query of
    [op_query] is requested, [close()] is called, the channel opens and
    the request is flushed and answered.  The [open] event has set the
    state back to open, so the response is followed by no re-check, and
    the cancellation that empties the Request Table closes nothing: the
    transport is never closed. *)
Lemma close_while_connecting_run :
  let result := run [EvRequest op_query 11; EvCloseCall; EvOpen;
                     EvTimeout all_open; EvMessage (IncomingResponse data_2);
                     EvCancel all_open op_query] connecting_0 in
  state result.1 = st_open
  ∧ pendingRequests result.1 = ∅
  ∧ result.2
    = [SetTimeout;
       Send 0 (ObjectFrame
                 (RequestEnvelope (IdNumber 2) query
                    (JObject [("id", JString "world")]) "testQuery"));
       CallNext 11 data_2;
       CallComplete 11].
Proof. repeat split; vm_compute; reflexivity. Qed.

(** Two requests in one turn leave as one array frame, in request order. *)
Example batch_frame :
  (run [EvRequest op_sub 10; EvRequest op_query 11; EvTimeout all_open]
     client_0).2
  = [Send 0 (ArrayFrame
               [RequestEnvelope (IdNumber 1) subscription
                  (JObject [("channel", JString "test")]) "testSubscription";
                RequestEnvelope (IdNumber 2) query
                  (JObject [("id", JString "world")]) "testQuery"])].
Proof. vm_compute. reflexivity. Qed.

(** A client created on an open channel arms the timer at once; with no
    request made in that turn, the flush sends an empty array frame. *)
Example empty_queue_flush :
  (createDataChannelClient 0 rs_open).2 = [SetTimeout]
  ∧ (dispatch_timeout all_open client_0).2 = [Send 0 (ArrayFrame [])].
Proof. split; vm_compute; reflexivity. Qed.

(** An unexpected close errors every pending request. *)
Example premature_close :
  onClose (run [EvRequest op_sub 10; EvRequest op_query 11] client_0).1
  = (with_pendingRequests ∅
       (run [EvRequest op_sub 10; EvRequest op_query 11] client_0).1,
     [CallError 10 "DataChannel closed prematurely";
      CallError 11 "DataChannel closed prematurely"]).
Proof. vm_compute. reflexivity. Qed.

End LinkScenarios.

(** * Further properties of the responder *)

(** Splits a membership [H] in a list built from [++] and [::] into one
    goal for each element. *)
Ltac cases_member H :=
  cbn [fst snd] in H;
  rewrite ?elem_of_app, ?elem_of_cons, ?elem_of_nil in H;
  repeat match type of H with
         | _ ∨ _ => destruct H as [H | H]
         | False => destruct H
         end.

Section RegistryProperties.

Import Handler.

(** The registry keeps its keys distinct through every step of
    [handleRequest]. *)
Lemma handleRequest_keeps_distinct (msg : TRPCClientOutgoingMessage)
    (subs subs' : Registry) (effects : list Effect) :
  Map_keys_distinct subs →
  handleRequest msg subs = Returns subs' effects →
  Map_keys_distinct subs'.
Proof.
  intros Hsubs. unfold handleRequest.
  destruct (is_null (msg_id msg)); [discriminate|].
  destruct msg as [id jsonrpc | id jsonrpc type input path]; [|discriminate].
  intros [= <- _]. by apply Map_delete_keeps_distinct.
Qed.

Lemma handleRequest_resume_keeps_distinct (call : ProcedureCall)
    (outcome : ProcedureOutcome) (readyState : ReadyState) (subs : Registry) :
  Map_keys_distinct subs →
  Map_keys_distinct (handleRequest_resume call outcome readyState subs).1.
Proof.
  intros Hsubs. unfold handleRequest_resume, try_block.
  destruct outcome as [[v | observable] | error]; cbn;
    destruct (bool_decide (call_type call = subscription)); cbn; try done.
  destruct (negb (bool_decide (readyState = rs_open))); cbn; [done|].
  destruct (Map_has (call_id call) subs); cbn; [done|].
  by apply Map_set_keeps_distinct.
Qed.

(** X1: a cancel envelope.  For an id under which nothing is registered it
    does nothing: the registry is as before and no response is sent.  For
    a registered id the subscription is unsubscribed, one [stopped]
    response is sent, and the entry is gone, so that the same cancel
    envelope arriving again does nothing. *)
Theorem handleRequest_cancel_envelope
    (id jsonrpc : jsval) (subs : Registry) :
  is_null id = false →
  Map_keys_distinct subs →
  match Map_get id subs with
  | None => handleRequest (StopMessage id jsonrpc) subs = Returns subs []
  | Some sub =>
      ∃ subs',
        handleRequest (StopMessage id jsonrpc) subs
        = Returns subs' [Unsubscribe sub;
                         Send (ResultResponse id jsonrpc ResultStopped)]
        ∧ Map_get id subs' = None
        ∧ handleRequest (StopMessage id jsonrpc) subs' = Returns subs' []
  end.
Proof.
  intros Hid Hsubs. unfold handleRequest. cbn [msg_id]. rewrite Hid.
  destruct (Map_get id subs) as [sub|] eqn:Hget.
  - exists (Map_delete id subs).
    assert (Hgone : Map_get id (Map_delete id subs) = None)
      by by apply Map_get_delete_same.
    split; [reflexivity|]. split; [exact Hgone|].
    rewrite Hgone. by rewrite (Map_get_delete_absent _ _ Hgone).
  - by rewrite Map_get_delete_absent.
Qed.

(** X2: subscribing and then cancelling.  A subscription request with a
    primitive id that is not yet registered, its procedure yielding a
    stream on an open transport, is registered; the cancel envelope for
    that id then unsubscribes exactly that stream, sends [stopped], and
    leaves the registry as it was before the request. *)
Theorem subscribe_then_cancel
    (call : ProcedureCall) (observable : Observable) (subs : Registry) :
  call_type call = subscription →
  same_value_zero (call_id call) (call_id call) = true →
  is_null (call_id call) = false →
  Map_has (call_id call) subs = false →
  let id := call_id call in
  let jsonrpc := call_jsonrpc call in
  let subs1 :=
    (handleRequest_resume call (Resolved (Stream observable)) rs_open subs).1 in
  Map_get id subs1 = Some (handle observable)
  ∧ handleRequest (StopMessage id jsonrpc) subs1
    = Returns subs [Unsubscribe (handle observable);
                    Send (ResultResponse id jsonrpc ResultStopped)].
Proof.
  intros Htype Hprim Hid Hfresh id jsonrpc subs1.
  assert (Hsubs1 : subs1 = Map_set id (handle observable) subs).
  { subst subs1. unfold handleRequest_resume, try_block.
    rewrite Htype. cbn. rewrite Hfresh.
    rewrite !bool_decide_eq_true_2 by reflexivity. reflexivity. }
  rewrite Hsubs1.
  assert (Hget : Map_get id (Map_set id (handle observable) subs)
                 = Some (handle observable)) by by apply Map_get_set_same.
  split; [exact Hget|].
  unfold handleRequest. cbn [msg_id]. fold id in Hid. rewrite Hid, Hget.
  rewrite Map_delete_set_fresh; [reflexivity | exact Hprim |].
  unfold Map_has in Hfresh. fold id in Hfresh.
  by destruct (Map_get id subs).
Qed.

(** X3: an id that is an array or an object.  The codec lets it through,
    and a subscription registered under it cannot be reached again: the
    cancel envelope carrying an equal id finds nothing, sends nothing and
    leaves the subscription registered; only the [close] listener
    unsubscribes it. *)
Theorem subscription_under_object_id_is_unreachable
    (call : ProcedureCall) (observable : Observable) (subs : Registry) :
  call_type call = subscription →
  same_value_zero (call_id call) (call_id call) = false →
  let id := call_id call in
  let jsonrpc := call_jsonrpc call in
  let subs1 :=
    (handleRequest_resume call (Resolved (Stream observable)) rs_open subs).1 in
  subs1 = subs ++ [(id, handle observable)]
  ∧ handleRequest (StopMessage id jsonrpc) subs1 = Returns subs1 []
  ∧ Unsubscribe (handle observable) ∈ (onClose subs1).2.
Proof.
  intros Htype Hobj id jsonrpc subs1.
  assert (Hnull : is_null id = false).
  { subst id. destruct (call_id call); try reflexivity; discriminate. }
  assert (Hsubs1 : subs1 = subs ++ [(id, handle observable)]).
  { subst subs1. unfold handleRequest_resume, try_block.
    rewrite Htype. cbn. unfold Map_has.
    rewrite (Map_get_unprimitive (call_id call) subs Hobj).
    rewrite !bool_decide_eq_true_2 by reflexivity. cbn.
    by apply Map_set_fresh_unprimitive. }
  split; [exact Hsubs1|]. split.
  - unfold handleRequest. cbn [msg_id]. rewrite Hnull.
    rewrite (Map_get_unprimitive id subs1 Hobj).
    by rewrite (Map_get_delete_absent id subs1 (Map_get_unprimitive id subs1 Hobj)).
  - rewrite Hsubs1. unfold onClose, Map_values. cbn.
    rewrite !fmap_app. cbn. apply elem_of_app. right.
    apply elem_of_cons. by left.
Qed.

End RegistryProperties.

Section EngineProperties.

Import Handler.

Implicit Types deserialize : jsval → Result jsval.

Lemma observer_responses_carry_id (call : ProcedureCall) (evs : list StreamEvent)
    (m : TRPCResponseMessage) :
  Send m ∈ flat_map (observer call) evs → response_id m = call_id call.
Proof.
  induction evs as [|ev evs IH]; cbn; [by intros H; apply elem_of_nil in H|].
  rewrite elem_of_app. intros [H | H]; [|by apply IH].
  destruct ev; unfold observer, respond in H; cbn in H; cases_member H;
    try discriminate H; injection H as ->; done.
Qed.

(** X4: whatever the outcome of the procedure, every response that the
    resumed [handleRequest] sends carries the id of its request; none of
    them is an unsolicited response. *)
Theorem handleRequest_responses_carry_id
    (call : ProcedureCall) (outcome : ProcedureOutcome) (readyState : ReadyState)
    (subs : Registry) (m : TRPCResponseMessage) :
  Send m ∈ (handleRequest_resume call outcome readyState subs).2 →
  response_id m = call_id call.
Proof.
  unfold handleRequest_resume, try_block, subscribe, stopSubscription, respond.
  destruct outcome as [[v | observable] | error]; cbn;
    destruct (bool_decide (call_type call = subscription)); cbn;
    try (destruct (negb (bool_decide (readyState = rs_open))); cbn;
         [|destruct (Map_has (call_id call) subs); cbn]);
    intros H; cases_member H;
    try discriminate H;
    try (by eapply observer_responses_carry_id);
    injection H as ->; done.
Qed.

(** X5: a query or a mutation on an open transport is answered by exactly
    one response, [data] with what the procedure resolved to or [error]
    with what it rejected with (reported to [onError] first); the
    registry is not touched and nothing is unsubscribed. *)
Theorem one_shot_single_response
    (call : ProcedureCall) (outcome : ProcedureOutcome) (subs : Registry) :
  call_type call ≠ subscription →
  let id := call_id call in
  let jsonrpc := call_jsonrpc call in
  handleRequest_resume call outcome rs_open subs
  = (subs,
     match outcome with
     | Resolved result => [Send (ResultResponse id jsonrpc (ResultData result))]
     | Rejected error =>
         let shape := mkErrorShape error (Some (call_type call))
                        (Some (call_path call)) (call_input call) in
         [OnError shape; Send (ErrorResponse id jsonrpc shape)]
     end).
Proof.
  intros Htype id jsonrpc. unfold handleRequest_resume, try_block.
  rewrite (bool_decide_eq_false_2 _ Htype).
  destruct outcome as [result | error]; reflexivity.
Qed.

(** X6: [started] and the registry go together.  The resumed
    [handleRequest] sends [started] exactly when the request is a
    subscription whose procedure yielded a stream, the transport is open
    and the id is not registered; then, and only then, the registry
    changes: the entry of that stream under the id is appended to it. *)
Theorem started_iff_registered
    (call : ProcedureCall) (outcome : ProcedureOutcome) (readyState : ReadyState)
    (subs : Registry) :
  let id := call_id call in
  let started := Send (ResultResponse id (call_jsonrpc call) ResultStarted) in
  let result := handleRequest_resume call outcome readyState subs in
  let registers observable :=
    call_type call = subscription ∧ outcome = Resolved (Stream observable)
    ∧ readyState = rs_open ∧ Map_has id subs = false in
  (started ∈ result.2 ↔ ∃ observable, registers observable)
  ∧ (∀ observable, registers observable →
       result.1 = subs ++ [(id, handle observable)])
  ∧ ((∀ observable, ¬ registers observable) → result.1 = subs).
Proof.
  intros id started result registers. subst result registers started id.
  pose proof (subscribe_no_started) as Hemits. unfold subscribe in Hemits.
  unfold handleRequest_resume, try_block, subscribe, stopSubscription, respond.
  destruct (decide (call_type call = subscription)) as [Htype | Htype];
    [rewrite (bool_decide_eq_true_2 _ Htype)
    |rewrite (bool_decide_eq_false_2 _ Htype)];
    destruct outcome as [[v | observable] | error]; cbn;
    try (split; [split; [intros H; cases_member H; discriminate H
                        |intros (o & Hsub & Hout & _); congruence]
                |split; [intros o (Hsub & Hout & _); congruence | done]]).
  destruct (decide (readyState = rs_open)) as [Hopen | Hclosed];
    [rewrite (bool_decide_eq_true_2 _ Hopen)
    |rewrite (bool_decide_eq_false_2 _ Hclosed)]; cbn.
  - destruct (Map_has (call_id call) subs) eqn:Hhas; cbn.
    + split; [split|split].
      * intros H. cases_member H; try discriminate H.
        exfalso. exact (Hemits observable call _ _ H).
      * intros (o & _ & _ & _ & Hfresh). congruence.
      * intros o (_ & _ & _ & Hfresh). congruence.
      * done.
    + split; [split|split].
      * intros _. by exists observable.
      * intros _. apply elem_of_app. right. apply elem_of_cons. by left.
      * intros o (_ & Hout & _). injection Hout as <-.
        apply Map_set_absent. unfold Map_has in Hhas.
        by destruct (Map_get (call_id call) subs).
      * intros Hnone. exfalso. by apply (Hnone observable).
  - split; [split|split].
    + intros H. cases_member H; try discriminate H.
      exfalso. exact (Hemits observable call _ _ H).
    + intros (o & _ & _ & Hopen & _). congruence.
    + intros o (_ & _ & Hopen & _). congruence.
    + done.
Qed.

(** [handleRequests] handles the members that carry an id as if the others
    were not there, and rejects exactly when one of them carries none. *)
Lemma handleRequests_members_without_id
    (msgs : list TRPCClientOutgoingMessage) (subs : Registry) :
  handleRequests msgs subs
  = let '(subs', effects, calls, _) :=
      handleRequests (filter (fun msg => has_id msg = true) msgs) subs in
    (subs', effects, calls,
     if forallb has_id msgs then None
     else Some (mkTRPCError "BAD_REQUEST" (Some "`id` is required") None)).
Proof.
  revert subs. induction msgs as [|msg msgs IH]; intros subs; [reflexivity|].
  cbn [handleRequests forallb].
  destruct (has_id msg) eqn:Hid.
  - rewrite filter_cons_True by done. cbn [handleRequests andb].
    unfold has_id in Hid. apply negb_true_iff in Hid.
    unfold handleRequest. rewrite Hid.
    destruct msg as [id jsonrpc | id jsonrpc type input path].
    + rewrite IH.
      destruct (handleRequests (filter _ msgs) (Map_delete id subs))
        as [[[s t] c] r]. reflexivity.
    + rewrite IH.
      destruct (handleRequests (filter _ msgs) subs) as [[[s t] c] r].
      reflexivity.
  - rewrite filter_cons_False by (rewrite Hid; discriminate).
    cbn [andb]. unfold has_id in Hid. apply negb_false_iff in Hid.
    unfold handleRequest. rewrite Hid. rewrite IH.
    destruct (handleRequests (filter _ msgs) subs) as [[[s t] c] r].
    reflexivity.
Qed.

(** X7: a frame whose members all pass the codec.  Members without an id
    ([id: null]) are not handled and are reported by one unsolicited
    [PARSE_ERROR] response at the end, however many they are; the members
    that carry an id are handled exactly as if the others were not in the
    frame. *)
Theorem onMessage_members_without_id
    deserialize (frame : jsval) (msgs : list TRPCClientOutgoingMessage)
    (subs : Registry) :
  map_throwing (parseMessage deserialize) (frame_members frame) = Ok msgs →
  let '(subs', effects, calls, rejected) :=
    handleRequests (filter (fun msg => has_id msg = true) msgs) subs in
  rejected = None
  ∧ onMessage deserialize (Ok frame) subs
    = (subs',
       effects
         ++ (if forallb has_id msgs then []
             else [Send (parse_error_response (Some "`id` is required"))]),
       calls).
Proof.
  intros Hparsed.
  pose proof (handleRequests_members_without_id msgs subs) as Hall.
  pose proof (handleRequests_members_without_id
                (filter (fun msg => has_id msg = true) msgs) subs) as Hgood.
  assert (Hfilter : forallb has_id (filter (fun msg => has_id msg = true) msgs)
                    = true).
  { apply forallb_forall. intros msg Hin.
    apply list_elem_of_In, list_elem_of_filter in Hin as [Hid _]. exact Hid. }
  rewrite Hfilter in Hgood.
  rewrite (list_filter_filter_l _ _ msgs) in Hgood by done.
  unfold onMessage. cbn. rewrite Hparsed, Hall.
  destruct (handleRequests (filter _ msgs) subs) as [[[s t] c] r].
  injection Hgood as ->. split; [reflexivity|].
  destruct (forallb has_id msgs); cbn; [by rewrite app_nil_r | reflexivity].
Qed.

End EngineProperties.

Section CodecProperties.

Import Handler Wire.

Implicit Types deserialize : jsval → Result jsval.

Lemma is_string_true (v : jsval) (lit : string) :
  is_string v lit = true ↔ v = JString lit.
Proof.
  destruct v; cbn; try (split; [discriminate | intros [=]]).
  rewrite String.eqb_eq. split; [by intros -> | by intros [= ->]].
Qed.

Lemma assertIsObject_Ok (v : jsval) :
  assertIsObject v = Ok () ↔ ∃ fs, v = JObject fs.
Proof.
  destruct v as [| | b | [|z] | s | l | fs]; cbn;
    try (split; [discriminate | intros [fs' [=]]]).
  split; [eauto | done].
Qed.

Lemma assertIsRequestId_Ok (v : jsval) :
  assertIsRequestId v = Ok () ↔ v ≠ JNumber NaN.
Proof.
  split; [|apply assertIsRequestId_accepts].
  intros Hok ->. discriminate Hok.
Qed.

Lemma assertIsJSONRPC2OrUndefined_Ok (v : jsval) :
  assertIsJSONRPC2OrUndefined v = Ok () ↔ v = JUndefined ∨ v = JString "2.0".
Proof.
  unfold assertIsJSONRPC2OrUndefined.
  destruct v as [| | b | [|z] | s | l | fs]; cbn;
    try (split; [discriminate | intros [[=] | [=]]]).
  - split; [by left | done].
  - destruct (String.eqb_spec s "2.0") as [-> | Hne]; cbn.
    + split; [by right | done].
    + split; [discriminate | intros [[=] | [= ->]]; done].
Qed.

Lemma assertIsProcedureType_Ok (v : jsval) (type : ProcedureType) :
  assertIsProcedureType v = Ok type ↔ v = JString (type_name type).
Proof.
  unfold assertIsProcedureType.
  destruct v as [| | b | [|z] | s | l | fs]; cbn;
    try (split; [discriminate | by destruct type]).
  destruct (String.eqb_spec s "query") as [-> | Hq]; cbn.
  { split; [by intros [= <-] | by destruct type]. }
  destruct (String.eqb_spec s "subscription") as [-> | Hs]; cbn.
  { split; [by intros [= <-] | by destruct type]. }
  destruct (String.eqb_spec s "mutation") as [-> | Hm]; cbn.
  { split; [by intros [= <-] | by destruct type]. }
  split; [discriminate | intros [= ->]; by destruct type].
Qed.

Lemma assertIsString_Ok (v : jsval) (s : string) :
  assertIsString v = Ok s ↔ v = JString s.
Proof.
  destruct v; cbn; try (split; [discriminate | intros [=]]).
  split; [by intros [= ->] | by intros [= ->]].
Qed.

Lemma Result_unit_cases (r : Result unit) : r = Ok () ∨ ∃ e, r = Throw e.
Proof. destruct r as [[]|e]; eauto. Qed.

(** X8: what the codec accepts.  [parseMessage] returns a message exactly
    for an object whose [id] is not the number [NaN], whose [jsonrpc] is
    absent or ["2.0"], and which is either a cancel envelope (method
    ["subscription.stop"], nothing else looked at) or a request envelope:
    one of the three procedure types as method, an object as [params]
    with a string [path], and an [input] that the transformer
    deserializes.  The message carries the id and [jsonrpc] as given. *)
Theorem parseMessage_accepts_exactly
    deserialize (obj : jsval) (m : TRPCClientOutgoingMessage) :
  parseMessage deserialize obj = Ok m
  ↔ ∃ fs,
      obj = JObject fs
      ∧ field "id" fs ≠ JNumber NaN
      ∧ (field "jsonrpc" fs = JUndefined ∨ field "jsonrpc" fs = JString "2.0")
      ∧ ((field "method" fs = JString "subscription.stop"
          ∧ m = StopMessage (field "id" fs) (field "jsonrpc" fs))
         ∨ (∃ type ps path input,
              field "method" fs = JString (type_name type)
              ∧ field "params" fs = JObject ps
              ∧ field "path" ps = JString path
              ∧ deserialize (field "input" ps) = Ok input
              ∧ m = RequestMessage (field "id" fs) (field "jsonrpc" fs)
                      type input path)).
Proof.
  unfold parseMessage. split.
  - intros Hok.
    destruct (Result_unit_cases (assertIsObject obj)) as [Hobj | [e Hobj]];
      rewrite Hobj in Hok; [|discriminate].
    apply assertIsObject_Ok in Hobj as [fs ->]. exists fs.
    split; [reflexivity|]. cbn in Hok.
    destruct (Result_unit_cases (assertIsRequestId (field "id" fs)))
      as [Hid | [e Hid]]; rewrite Hid in Hok; [|discriminate].
    apply assertIsRequestId_Ok in Hid. split; [exact Hid|]. cbn in Hok.
    destruct (Result_unit_cases
                (assertIsJSONRPC2OrUndefined (field "jsonrpc" fs)))
      as [Hrpc | [e Hrpc]]; rewrite Hrpc in Hok; [|discriminate].
    apply assertIsJSONRPC2OrUndefined_Ok in Hrpc. split; [exact Hrpc|].
    cbn in Hok.
    destruct (is_string (field "method" fs) "subscription.stop") eqn:Hstop.
    { apply is_string_true in Hstop. left. by injection Hok as <-. }
    right.
    destruct (assertIsProcedureType (field "method" fs)) as [type|e] eqn:Htype;
      [|discriminate].
    apply assertIsProcedureType_Ok in Htype. cbn in Hok.
    destruct (Result_unit_cases (assertIsObject (field "params" fs)))
      as [Hps | [e Hps]]; rewrite Hps in Hok; [|discriminate].
    apply assertIsObject_Ok in Hps as [ps Hps]. rewrite Hps in Hok.
    cbn in Hok.
    destruct (assertIsString (field "path" ps)) as [path|e] eqn:Hpath;
      [|discriminate].
    apply assertIsString_Ok in Hpath. cbn in Hok.
    destruct (deserialize (field "input" ps)) as [input|e] eqn:Hinput;
      [|discriminate].
    injection Hok as <-. by exists type, ps, path, input.
  - intros (fs & -> & Hid & Hrpc & Hmethod). cbn.
    apply assertIsRequestId_Ok in Hid. rewrite Hid. cbn.
    apply assertIsJSONRPC2OrUndefined_Ok in Hrpc. rewrite Hrpc. cbn.
    destruct Hmethod as [[Hstop ->] | (type & ps & path & input & Htype & Hps
                                       & Hpath & Hinput & ->)].
    + apply is_string_true in Hstop. by rewrite Hstop.
    + assert (Hstop : is_string (field "method" fs) "subscription.stop" = false).
      { rewrite Htype. by destruct type. }
      rewrite Hstop.
      apply assertIsProcedureType_Ok in Htype. rewrite Htype. cbn.
      rewrite Hps. cbn.
      apply assertIsString_Ok in Hpath. rewrite Hpath. cbn.
      rewrite Hinput. reflexivity.
Qed.

(** X9: the envelopes of the link pass the codec of the handler.  The
    object that the cancellation function builds is read back as the
    cancel message for its id; the object that [request] builds is read
    back as the request for its id, method and path, with the input as
    the transformer deserializes it, and is rejected only if the
    transformer throws. *)
Theorem link_envelopes_pass_codec deserialize :
  (∀ id, parseMessage deserialize (envelope_value (Link.StopEnvelope id))
         = Ok (StopMessage (id_value id) JUndefined))
  ∧ (∀ id method input path,
       parseMessage deserialize
         (envelope_value (Link.RequestEnvelope id method input path))
       = input' ← deserialize input;
         mret (RequestMessage (id_value id) JUndefined method input' path)).
Proof.
  split.
  - intros id. unfold parseMessage. cbn.
    rewrite assertIsRequestId_accepts by (by destruct id). reflexivity.
  - intros id method input path. unfold parseMessage. cbn.
    rewrite assertIsRequestId_accepts by (by destruct id). cbn.
    destruct method; cbn; reflexivity.
Qed.

End CodecProperties.

(** * Further properties of the caller *)

Section BatchingProperties.

Import Link Wire.

Lemma run_app (evs1 evs2 : list Event) (c : Client) :
  run (evs1 ++ evs2) c
  = let '(c1, effects1) := run evs1 c in
    let '(c2, effects2) := run evs2 c1 in
    (c2, effects1 ++ effects2).
Proof.
  revert c. induction evs1 as [|ev evs1 IH]; intros c; cbn.
  - by destruct (run evs2 c).
  - destruct (deliver ev c) as [c1 effects1]. rewrite IH.
    destruct (run evs1 c1) as [c2 effects2].
    destruct (run evs2 c2) as [c3 effects3]. by rewrite app_assoc.
Qed.

(** The flush on an open transport sends the frame of the whole queue. *)
Lemma dispatch_timeout_open (readyState : Conn → ReadyState) (c : Client) :
  readyState (activeConnection c) = rs_open →
  dispatch_timeout readyState c
  = (with_outgoing [] (with_dispatchTimer false c),
     [Send (activeConnection c) (frame_of (outgoing c))]).
Proof.
  intros Hopen. unfold dispatch_timeout.
  cbn [activeConnection with_dispatchTimer outgoing].
  rewrite (bool_decide_eq_true_2 _ Hopen). cbn [negb].
  destruct (outgoing c) as [|msg [|msg' queue]]; reflexivity.
Qed.

(** A burst of [request] calls: the envelopes join the queue in call
    order, and the timer is armed once, by the first call, if the client
    is open and no timer is armed yet. *)
Lemma run_requests (reqs : list (Operation * TCallbacks)) (c : Client) :
  let arms := bool_decide (state c = st_open) && negb (dispatchTimer c)
              && negb (bool_decide (reqs = [])) in
  outgoing (run (requests reqs) c).1
  = outgoing c ++ (request_envelope ∘ fst <$> reqs)
  ∧ (run (requests reqs) c).2 = (if arms then [SetTimeout] else [])
  ∧ dispatchTimer (run (requests reqs) c).1 = dispatchTimer c || arms
  ∧ state (run (requests reqs) c).1 = state c
  ∧ activeConnection (run (requests reqs) c).1 = activeConnection c
  ∧ opts_dataChannel (run (requests reqs) c).1 = opts_dataChannel c.
Proof.
  revert c. induction reqs as [|[op cb] reqs IH]; intros c.
  - cbn [requests fmap list_fmap run fst snd].
    rewrite (bool_decide_eq_true_2 (@nil (Operation * TCallbacks) = [])) by done.
    cbn. rewrite app_nil_r.
    destruct (bool_decide (state c = st_open)), (dispatchTimer c); cbn; done.
  - cbn [requests fmap list_fmap run deliver fst snd].
    fold (requests reqs).
    assert (Hreq : ∃ armed timer,
      request op cb c
      = (mkClient (opts_dataChannel c) (outgoing c ++ [request_envelope op])
           (<[property_key (op_id op) :=
                mkRequest (activeConnection c) (op_type op) cb op]>
              (pendingRequests c))
           armed (state c) (activeConnection c), timer)
      ∧ armed = (dispatchTimer c
                 || bool_decide (state c = st_open) && negb (dispatchTimer c))
      ∧ timer = (if bool_decide (state c = st_open) && negb (dispatchTimer c)
                 then [SetTimeout] else [])).
    { unfold request, dispatch.
      cbn [state dispatchTimer outgoing pendingRequests activeConnection
           opts_dataChannel with_outgoing with_pendingRequests
           with_dispatchTimer].
      destruct (bool_decide (state c = st_open)), (dispatchTimer c) eqn:Ht;
        cbn; rewrite ?Ht; eexists _, _; (split; [reflexivity|]); done. }
    destruct Hreq as (armed & timer & -> & Harmed & Htimer).
    match goal with
    | |- context [run (requests reqs) ?c1] =>
        specialize (IH c1); destruct (run (requests reqs) c1) as [c2 effects2]
    end.
    cbn in IH |- *.
    destruct IH as (Hout & Heff & Harm & Hst & Hact & Hopts).
    rewrite Hout, Heff, Harm, Hst, Hact, Hopts, Harmed, Htimer.
    rewrite <- app_assoc.
    destruct (bool_decide (state c = st_open)), (dispatchTimer c),
      (bool_decide (reqs = [])); cbn; done.
Qed.

(** X10: coalescing.  On an idle open client (empty queue, no timer armed)
    a burst of any number of [request] calls arms the timer once, and the
    timer, firing on an open transport, sends everything in one frame:
    the envelope itself if the burst was one call, otherwise one array of
    the envelopes in call order.  The queue is empty afterwards and no
    timer is left armed. *)
Theorem request_burst_is_one_frame
    (readyState : Conn → ReadyState) (reqs : list (Operation * TCallbacks))
    (c : Client) :
  state c = st_open → dispatchTimer c = false → outgoing c = [] →
  reqs ≠ [] →
  readyState (activeConnection c) = rs_open →
  let result := run (requests reqs ++ [EvTimeout readyState]) c in
  result.2 = [SetTimeout;
              Send (activeConnection c)
                (frame_of (request_envelope ∘ fst <$> reqs))]
  ∧ outgoing result.1 = []
  ∧ dispatchTimer result.1 = false.
Proof.
  intros Hstate Htimer Hqueue Hreqs Hopen result. subst result.
  rewrite run_app.
  destruct (run_requests reqs c) as (Hout & Heff & _ & _ & Hact & _).
  destruct (run (requests reqs) c) as [c1 effects1]. cbn in Hout, Heff, Hact.
  cbn [run deliver]. rewrite dispatch_timeout_open by (by rewrite Hact).
  cbn. rewrite Heff, Hout, Hact, Hstate, Htimer, Hqueue.
  rewrite (bool_decide_eq_false_2 (reqs = [])) by done.
  rewrite bool_decide_eq_true_2 by done. cbn. done.
Qed.

(** X11: buffering while connecting.  A client created on a channel that
    is not open waits for the [open] event; [request] calls made meanwhile
    are queued, with nothing sent and no timer armed.  The [open] event
    arms the timer, and its firing sends everything queued as one frame
    (an empty array if nothing was requested). *)
Theorem requests_while_connecting
    (dc : Conn) (readyState0 : ReadyState) (readyState : Conn → ReadyState)
    (reqs : list (Operation * TCallbacks)) :
  readyState0 ≠ rs_open →
  readyState dc = rs_open →
  let created := createDataChannelClient dc readyState0 in
  created.2 = [AddOpenListener dc]
  ∧ (run (requests reqs) created.1).2 = []
  ∧ (run (requests reqs ++ [EvOpen; EvTimeout readyState]) created.1).2
    = [SetTimeout; Send dc (frame_of (request_envelope ∘ fst <$> reqs))].
Proof.
  intros Hconnecting Hopen created.
  assert (Hcreated : created
                     = (mkClient dc [] ∅ false st_connecting dc,
                        [AddOpenListener dc])).
  { subst created. unfold createDataChannelClient.
    by rewrite (bool_decide_eq_false_2 _ Hconnecting). }
  rewrite Hcreated. cbn [fst snd]. split; [reflexivity|].
  set (c := mkClient dc [] ∅ false st_connecting dc).
  destruct (run_requests reqs c) as (Hout & Heff & Harm & Hst & Hact & Hopts).
  split; [by rewrite Heff|].
  rewrite run_app.
  destruct (run (requests reqs) c) as [c1 effects1].
  cbn in Hout, Heff, Harm, Hst, Hact, Hopts.
  cbn [run deliver]. unfold onOpen. rewrite Hopts, Hact.
  rewrite bool_decide_eq_true_2 by done. cbn [negb].
  unfold dispatch. cbn [state with_state dispatchTimer].
  rewrite bool_decide_eq_true_2 by done. rewrite Harm.
  rewrite (bool_decide_eq_false_2 (st_connecting = st_open)) by done.
  cbn [negb orb andb].
  rewrite dispatch_timeout_open by (cbn; by rewrite Hact).
  cbn. by rewrite Heff, Hout, Hact.
Qed.

End BatchingProperties.

Section TableProperties.

Import Link Wire.

Lemma handleIncomingResponse_no_send
    (data : TRPCResponseMessage) (c : Client) (conn : Conn) (frame : Frame) :
  Send conn frame ∉ (handleIncomingResponse data c).2.
Proof.
  unfold handleIncomingResponse.
  destruct (resp_id data) as [id|]; [|apply not_elem_of_nil].
  destruct (pendingRequests c !! property_key id) as [req|];
    [|apply not_elem_of_nil].
  destruct (negb (bool_decide (dataChannel req = activeConnection c))
            && bool_decide (opts_dataChannel c = activeConnection c));
    [rewrite closeIfNoPending_cases|]; cbn;
    repeat match goal with
           | |- context [if ?b then _ else _] => destruct b
           end; cbn; intros H; cases_member H; discriminate H.
Qed.

(** X12: frames leave the client by the flush timer only.  Whatever event
    is delivered, if a frame is sent then the event is the firing of the
    timer with the active transport open, the frame goes to the active
    transport, and it is the frame of the whole queue.  No listener, no
    [request], cancellation or [close] sends anything itself. *)
Theorem only_the_flush_sends
    (ev : Event) (c : Client) (conn : Conn) (frame : Frame) :
  Send conn frame ∈ (deliver ev c).2 →
  ∃ readyState,
    ev = EvTimeout readyState
    ∧ readyState (activeConnection c) = rs_open
    ∧ conn = activeConnection c
    ∧ frame = frame_of (outgoing c).
Proof.
  destruct ev as [| msg | | rs | op cb | rs op |]; cbn [deliver]; intros Hsend.
  - exfalso. unfold onOpen in Hsend.
    destruct (negb (bool_decide (opts_dataChannel c = activeConnection c)));
      [by apply elem_of_nil in Hsend|].
    match type of Hsend with
    | context [dispatch ?c1] =>
        destruct (dispatch_cases c1) as [Hd | Hd]; rewrite Hd in Hsend
    end; cases_member Hsend; discriminate Hsend.
  - exfalso. unfold onMessage in Hsend.
    destruct msg as [method | data].
    + unfold handleIncomingRequest in Hsend.
      repeat match type of Hsend with
             | context [closeIfNoPending ?conn ?c1] =>
                 rewrite (closeIfNoPending_cases conn c1) in Hsend
             | context [if ?b then _ else _] => destruct b
             end; cbn in Hsend; cases_member Hsend; discriminate Hsend.
    + pose proof (handleIncomingResponse_no_send data c conn frame) as Hno.
      destruct (handleIncomingResponse data c) as [c1 handled].
      cbn in Hno.
      repeat match type of Hsend with
             | context [closeIfNoPending ?conn ?c1] =>
                 rewrite (closeIfNoPending_cases conn c1) in Hsend
             | context [if ?b then _ else _] => destruct b
             end; cbn in Hsend; cases_member Hsend;
        try discriminate Hsend; by apply Hno.
  - exfalso. apply onClose_effects in Hsend as (key & req & _ & _ & Heq).
    unfold settle in Heq. by destruct (bool_decide (state c = st_closed)).
  - exists rs.
    destruct (decide (rs (activeConnection c) = rs_open)) as [Hopen | Hclosed].
    + rewrite (dispatch_timeout_open rs c Hopen) in Hsend. cbn in Hsend.
      apply elem_of_cons in Hsend as [[= -> ->] | Hsend]; [done|].
      by apply elem_of_nil in Hsend.
    + unfold dispatch_timeout in Hsend.
      cbn [activeConnection with_dispatchTimer] in Hsend.
      rewrite (bool_decide_eq_false_2 _ Hclosed) in Hsend.
      by apply elem_of_nil in Hsend.
  - exfalso. unfold request in Hsend.
    match type of Hsend with
    | context [dispatch ?c1] =>
        destruct (dispatch_cases c1) as [Hd | Hd]; rewrite Hd in Hsend
    end; cases_member Hsend; discriminate Hsend.
  - exfalso.
    destruct (unsub_spec rs op c) as (armed & timer & Heq & Htimer).
    rewrite Heq in Hsend. cbn in Hsend.
    destruct (pendingRequests c !! property_key (op_id op));
      destruct Htimer as [[-> _] | (-> & _ & _)];
      cases_member Hsend; discriminate Hsend.
  - exfalso. unfold close in Hsend. rewrite closeIfNoPending_cases in Hsend.
    cbn in Hsend.
    match type of Hsend with
    | context [if ?b then _ else _] => destruct b
    end; cases_member Hsend; discriminate Hsend.
Qed.

Lemma filter_none {A : Type} (P : A → Prop) `{∀ x, Decision (P x)} (l : list A) :
  Forall (fun x => ¬ P x) l → filter P l = [].
Proof.
  induction 1 as [|x l Hx Hl IH]; [reflexivity|].
  by rewrite filter_cons_False.
Qed.

(** X13: the [close] listener is thorough and idempotent.  After it ran,
    no pending request is bound to the client's channel, and a second
    [close] event changes nothing and invokes no callback: every request
    is settled once. *)
Theorem onClose_settles_once (c : Client) :
  hasPendingRequests (opts_dataChannel c) (onClose c).1 = false
  ∧ onClose (onClose c).1 = ((onClose c).1, []).
Proof.
  rewrite onClose_closed_form. cbn [fst].
  set (remaining := filter (fun entry => ¬ owned c entry) (pendingRequests c)).
  assert (Hremaining : ∀ key req, remaining !! key = Some req →
                                  dataChannel req ≠ opts_dataChannel c).
  { intros key req Hlook.
    apply map_lookup_filter_Some in Hlook as [_ Hnot]. exact Hnot. }
  split.
  - apply hasPendingRequests_false. exact Hremaining.
  - rewrite onClose_closed_form.
    cbn [pendingRequests with_pendingRequests].
    assert (Hkeep : filter (fun entry => ¬ owned (with_pendingRequests remaining c) entry)
                      remaining = remaining).
    { apply map_filter_id. intros key req Hlook. by apply Hremaining in Hlook. }
    rewrite Hkeep.
    rewrite filter_none; [reflexivity|].
    apply Forall_forall. intros [key req] Hin.
    apply elem_of_map_to_list in Hin. by apply Hremaining in Hin.
Qed.

(** X14: a request of the responder.  The listener never invokes a callback
    for it and leaves the client as it was.  It closes the client's
    channel, once, exactly when no pending request is bound to the channel
    and either the client state is closed, or the state is open and the
    method is ["reconnect"]; any other method in the open state, and
    everything while connecting, is ignored. *)
Theorem incoming_request_closes_or_ignores (method : string) (c : Client) :
  opts_dataChannel c = activeConnection c →
  onMessage (IncomingRequest method) c
  = (c,
     if negb (hasPendingRequests (opts_dataChannel c) c)
        && (bool_decide (state c = st_closed)
            || bool_decide (state c = st_open) && String.eqb method "reconnect")
     then [Close (opts_dataChannel c)]
     else []).
Proof.
  intros Hopts. unfold onMessage, handleIncomingRequest.
  rewrite (bool_decide_eq_true_2 _ Hopts), andb_true_r.
  destruct (bool_decide (state c = st_open)) eqn:Ho;
    destruct (bool_decide (state c = st_closed)) eqn:Hc.
  { apply bool_decide_eq_true in Ho, Hc. congruence. }
  all: destruct (String.eqb method "reconnect");
    rewrite ?closeIfNoPending_cases;
    cbn [fst snd opts_dataChannel activeConnection state];
    rewrite ?(bool_decide_eq_true_2 _ Hopts), ?Ho, ?Hc;
    cbn [negb orb andb];
    rewrite ?closeIfNoPending_cases;
    destruct (hasPendingRequests (opts_dataChannel c) c);
    cbn; reflexivity.
Qed.

Lemma property_key_eq (id1 id2 : RequestId) :
  property_key id1 = property_key id2
  ↔ id1 = id2
    ∨ (∃ n, id1 = IdNumber n ∧ id2 = IdString (pretty n))
    ∨ (∃ n, id1 = IdString (pretty n) ∧ id2 = IdNumber n).
Proof.
  split.
  - destruct id1 as [n1 | s1], id2 as [n2 | s2]; cbn; intros Heq.
    + left. f_equal. by apply (inj pretty).
    + right. left. exists n1. by subst.
    + right. right. exists n2. by subst.
    + left. by subst.
  - intros [-> | [(n & -> & ->) | (n & -> & ->)]]; reflexivity.
Qed.

(** X15: two ids under one key.  For ids that are strings or safe
    integers, two ids name the same entry of the Request Table exactly
    when they are equal or one is a number and the other the string of
    its decimal digits.  When a second request is made under the key of a
    first one still pending, both envelopes are queued, but the table
    keeps the second request only: a response that carries the id of the
    first request is handed to the callbacks of the second. *)
Theorem colliding_ids_share_one_entry
    (op1 op2 : Operation) (cb1 cb2 : TCallbacks) (body : ResponseBody)
    (c : Client) :
  exact_key (op_id op1) = true → exact_key (op_id op2) = true →
  opts_dataChannel c = activeConnection c →
  let key1 := property_key (op_id op1) in
  let key2 := property_key (op_id op2) in
  let c2 := (request op2 cb2 (request op1 cb1 c).1).1 in
  let data := mkResponse (Some (op_id op1)) body in
  (key1 = key2
   ↔ op_id op1 = op_id op2
     ∨ (∃ n, op_id op1 = IdNumber n ∧ op_id op2 = IdString (pretty n))
     ∨ (∃ n, op_id op1 = IdString (pretty n) ∧ op_id op2 = IdNumber n))
  ∧ (key1 = key2 →
     outgoing c2 = outgoing c ++ [request_envelope op1; request_envelope op2]
     ∧ (∀ key, pendingRequests c2 !! key
               = if bool_decide (key = key2)
                 then Some (mkRequest (activeConnection c) (op_type op2) cb2 op2)
                 else pendingRequests c !! key)
     ∧ handleIncomingResponse data c2
       = (c2, CallNext cb2 data
              :: (if is_stopped data then [CallComplete cb2] else []))).
Proof.
  intros _ _ Hopts key1 key2 c2 data.
  split; [apply property_key_eq|]. intros Hsame.
  assert (Hc2 : ∃ armed,
    c2 = mkClient (opts_dataChannel c)
           (outgoing c ++ [request_envelope op1; request_envelope op2])
           (<[key2 := mkRequest (activeConnection c) (op_type op2) cb2 op2]>
              (pendingRequests c))
           armed (state c) (activeConnection c)).
  { subst c2. unfold request.
    repeat match goal with
           | |- context [dispatch ?c1] =>
               destruct (dispatch_cases c1) as [-> | ->]; cbn
           end;
      fold key1 key2; rewrite Hsame, insert_insert_eq, <- app_assoc;
      eexists; reflexivity. }
  destruct Hc2 as (armed & Hc2). rewrite Hc2.
  cbn [outgoing pendingRequests]. split; [reflexivity|]. split.
  - intros key. destruct (decide (key = key2)) as [-> | Hne].
    + rewrite bool_decide_eq_true_2 by done. apply lookup_insert_eq.
    + rewrite bool_decide_eq_false_2 by done. by apply lookup_insert_ne.
  - unfold handleIncomingResponse.
    cbn [resp_id data pendingRequests opts_dataChannel activeConnection].
    subst data. cbn [resp_id]. fold key1. rewrite Hsame, lookup_insert_eq.
    cbn [dataChannel callbacks].
    rewrite (bool_decide_eq_true_2 (activeConnection c = activeConnection c))
      by done.
    rewrite (bool_decide_eq_true_2 _ Hopts). cbn. rewrite andb_true_r.
    reflexivity.
Qed.

(** X16: a request cancelled before its flush.  For a fresh id (nothing
    pending under it, no envelope with it queued), [request] followed by
    its cancellation function leaves the Request Table and the queue as
    they were before the request, but for one thing: for a subscription
    on an open transport a [subscription.stop] envelope is queued, for a
    request that was never sent.  The only callback invoked is
    [complete], of the callbacks just passed in. *)
Theorem request_cancelled_before_flush
    (readyState : Conn → ReadyState) (op : Operation) (cb : TCallbacks)
    (c : Client) :
  pendingRequests c !! property_key (op_id op) = None →
  Forall (fun msg => msg_id msg ≠ op_id op) (outgoing c) →
  let requested := request op cb c in
  let cancelled := unsub readyState op requested.1 in
  pendingRequests cancelled.1 = pendingRequests c
  ∧ outgoing cancelled.1
    = outgoing c
        ++ (if bool_decide (readyState (activeConnection c) = rs_open)
               && bool_decide (op_type op = subscription)
            then [StopEnvelope (op_id op)] else [])
  ∧ filter (fun e => is_callback e = true) (requested.2 ++ cancelled.2)
    = [CallComplete cb].
Proof.
  intros Hfresh Hqueue requested cancelled.
  assert (Hreq : ∃ armed timer,
    requested
    = (mkClient (opts_dataChannel c) (outgoing c ++ [request_envelope op])
         (<[property_key (op_id op) :=
              mkRequest (activeConnection c) (op_type op) cb op]>
            (pendingRequests c))
         armed (state c) (activeConnection c), timer)
    ∧ (timer = [] ∨ timer = [SetTimeout])).
  { subst requested. unfold request.
    match goal with
    | |- context [dispatch ?c1] => destruct (dispatch_cases c1) as [-> | ->]
    end; eexists _, _; (split; [reflexivity|]); auto. }
  destruct Hreq as (armed & timer & Hrequested & Htimer).
  subst cancelled. rewrite Hrequested. cbn [fst snd].
  match goal with
  | |- context [unsub readyState op ?c1] =>
      destruct (unsub_spec readyState op c1) as (armed' & timer' & -> & Htimer')
  end.
  cbn [fst snd pendingRequests outgoing activeConnection].
  rewrite lookup_insert_eq. split; [|split].
  - rewrite delete_insert_eq. by apply delete_id.
  - rewrite filter_app, (filter_Forall_id _ _ Hqueue).
    rewrite filter_cons_False by (cbn; intros H; by apply H).
    by rewrite filter_nil, app_nil_r.
  - destruct Htimer as [-> | ->];
      destruct Htimer' as [[-> _] | (-> & _ & _)]; reflexivity.
Qed.

Lemma handleIncomingResponse_bound (data : TRPCResponseMessage) (c : Client) :
  bound_to_active c →
  (handleIncomingResponse data c).1 = c
  ∧ Forall (fun e => is_callback e = true) (handleIncomingResponse data c).2.
Proof.
  intros [Hopts Hall]. unfold handleIncomingResponse.
  destruct (resp_id data) as [id|]; [|by split].
  destruct (pendingRequests c !! property_key id) as [req|] eqn:Hlook;
    [|by split].
  rewrite (bool_decide_eq_true_2 _ (Hall _ _ Hlook)). cbn.
  split; [reflexivity|].
  destruct (is_stopped data
            && bool_decide (opts_dataChannel c = activeConnection c));
    repeat constructor.
Qed.

(** X17: one channel for life.  In every state that a client can reach
    from its creation, by any events in any order, the active connection
    is the channel it was created for and every pending request is bound
    to it.  Hence the re-binding of a request to another connection never
    happens: a response leaves the client as it was and its only effects
    are callbacks. *)
Theorem client_keeps_its_channel
    (dc : Conn) (readyState : ReadyState) (evs : list Event) :
  let c := (run evs (createDataChannelClient dc readyState).1).1 in
  opts_dataChannel c = activeConnection c
  ∧ (∀ key req, pendingRequests c !! key = Some req →
       dataChannel req = activeConnection c)
  ∧ (∀ data, (handleIncomingResponse data c).1 = c
             ∧ Forall (fun e => is_callback e = true)
                 (handleIncomingResponse data c).2).
Proof.
  intros c. pose proof (reachable_bound dc readyState evs) as Hbound.
  fold c in Hbound. split; [apply Hbound|]. split; [apply Hbound|].
  intros data. by apply handleIncomingResponse_bound.
Qed.

End TableProperties.

(** * Properties of the link *)

Section LinkCallbackProperties.

Import DataChannelLink.

(** Once [isDone] is set it stays set, and nothing is reported as ended
    prematurely any more. *)
Lemma invoke_all_done (type : ProcedureType) (cbs : list Callback) :
  (invoke_all type cbs true).1 = true
  ∧ filter (fun e => is_premature e = true) (invoke_all type cbs true).2 = [].
Proof.
  induction cbs as [|cb cbs [IHdone IHnone]]; [done|].
  cbn [invoke_all].
  assert (Hcb : (invoke type cb true).1 = true
                ∧ filter (fun e => is_premature e = true)
                    (invoke type cb true).2 = []).
  { destruct cb as [err | | [result | error] |]; cbn;
      try destruct (negb (bool_decide (type = subscription))); done. }
  destruct (invoke type cb true) as [isDone1 effects1].
  cbn in Hcb. destruct Hcb as [-> Hnone1].
  destruct (invoke_all type cbs true) as [isDone2 effects2].
  cbn in IHdone, IHnone |- *. split; [done|].
  by rewrite filter_app, Hnone1, IHnone.
Qed.

(** One invocation with [isDone] unset either sets it, reporting a
    premature end at most once, or leaves it unset and reports none. *)
Lemma invoke_first_unset (type : ProcedureType) (cb : Callback) :
  ((invoke type cb false).1 = true
   ∧ (length (filter (fun e => is_premature e = true)
                (invoke type cb false).2) ≤ 1)%nat)
  ∨ ((invoke type cb false).1 = false
     ∧ filter (fun e => is_premature e = true) (invoke type cb false).2 = []).
Proof.
  destruct cb as [err | | [result | error] |]; cbn;
    try destruct (negb (bool_decide (type = subscription))); cbn;
    first [ right; split; [reflexivity | vm_compute; reflexivity]
          | left; split; [reflexivity | vm_compute; lia] ].
Qed.

(** X18: "Operation ended prematurely" is reported at most once.  Over any
    sequence of invocations of the link's callbacks and of its teardown
    function, starting with [isDone] unset as the link does, the observer
    receives the premature-end error at most once; and from a state with
    [isDone] set it never receives it. *)
Theorem premature_end_reported_at_most_once
    (type : ProcedureType) (cbs : list Callback) :
  (length (filter (fun e => is_premature e = true)
             (invoke_all type cbs false).2) ≤ 1)%nat
  ∧ filter (fun e => is_premature e = true) (invoke_all type cbs true).2 = [].
Proof.
  split; [|apply invoke_all_done].
  induction cbs as [|cb cbs IH]; [cbn; lia|].
  cbn [invoke_all].
  destruct (invoke_first_unset type cb) as [[Hdone Hone] | [Hdone Hone]];
    destruct (invoke type cb false) as [isDone1 effects1];
    cbn [fst snd] in Hdone, Hone |- *; subst isDone1.
  - pose proof (invoke_all_done type cbs) as [_ Hrest].
    destruct (invoke_all type cbs true) as [isDone2 effects2].
    cbn [fst snd] in Hrest |- *.
    rewrite filter_app, length_app, Hrest. cbn [length]. lia.
  - destruct (invoke_all type cbs false) as [isDone2 effects2].
    cbn [fst snd] in IH |- *.
    rewrite filter_app, length_app, Hone. cbn [length]. lia.
Qed.

(** X19: the link cancels only what it has marked done.  Whenever a
    callback or the teardown function calls [unsub], [isDone] is set; so
    the [complete] that the cancellation function invokes in return
    reports completion, and no invocation after it reports a premature
    end. *)
Theorem unsub_is_called_when_done
    (type : ProcedureType) (cb : Callback) (isDone : bool) :
  Unsub ∈ (invoke type cb isDone).2 →
  (invoke type cb isDone).1 = true
  ∧ complete (invoke type cb isDone).1 = (true, [ObserverComplete])
  ∧ ∀ cbs,
      filter (fun e => is_premature e = true)
        (invoke_all type cbs (invoke type cb isDone).1).2 = [].
Proof.
  intros Hunsub.
  assert (Hdone : (invoke type cb isDone).1 = true).
  { destruct cb as [err | | [result | error] |]; cbn in Hunsub |- *;
      try reflexivity.
    - unfold complete in Hunsub. destruct (negb isDone); absurd_member Hunsub.
    - destruct (negb (bool_decide (type = subscription))); [reflexivity|].
      absurd_member Hunsub.
    - absurd_member Hunsub. }
  rewrite Hdone. split; [reflexivity|]. split; [reflexivity|].
  intros cbs. apply invoke_all_done.
Qed.

End LinkCallbackProperties.

(** * Scenarios of the further properties *)

Section HandlerFurtherScenarios.

Import Handler Scenario.

(** The cancel envelope for the subscription registered under id 1. *)
Lemma handleRequest_cancel_envelope_witness :
  ∃ subs',
    handleRequest (StopMessage (JNumber (Num 1)) JUndefined) registry_1
    = Returns subs'
        [Unsubscribe 7;
         Send (ResultResponse (JNumber (Num 1)) JUndefined ResultStopped)]
    ∧ Map_get (JNumber (Num 1)) subs' = None
    ∧ handleRequest (StopMessage (JNumber (Num 1)) JUndefined) subs'
      = Returns subs' [].
Proof.
  apply (handleRequest_cancel_envelope (JNumber (Num 1)) JUndefined registry_1).
  - reflexivity.
  - cbn. tauto.
Defined.

(** The subscription of [call_1] on an empty registry, then cancelled. *)
Lemma subscribe_then_cancel_witness :
  Map_get (JNumber (Num 1))
    (handleRequest_resume call_1 (Resolved (Stream stream_9)) rs_open []).1
  = Some 9
  ∧ handleRequest (StopMessage (JNumber (Num 1)) JUndefined)
      (handleRequest_resume call_1 (Resolved (Stream stream_9)) rs_open []).1
    = Returns []
        [Unsubscribe 9;
         Send (ResultResponse (JNumber (Num 1)) JUndefined ResultStopped)].
Proof.
  apply (subscribe_then_cancel call_1 stream_9 []); reflexivity.
Defined.

(** The subscription of [call_obj], registered beside that of id 1. *)
Lemma subscription_under_object_id_is_unreachable_witness :
  (handleRequest_resume call_obj (Resolved (Stream stream_9)) rs_open registry_1).1
  = registry_1 ++ [(JObject [("n", JNumber (Num 1))], 9)]
  ∧ handleRequest (StopMessage (JObject [("n", JNumber (Num 1))]) JUndefined)
      (handleRequest_resume call_obj (Resolved (Stream stream_9)) rs_open
         registry_1).1
    = Returns
        (handleRequest_resume call_obj (Resolved (Stream stream_9)) rs_open
           registry_1).1 []
  ∧ Unsubscribe 9
    ∈ (onClose (handleRequest_resume call_obj (Resolved (Stream stream_9))
                  rs_open registry_1).1).2.
Proof.
  apply (subscription_under_object_id_is_unreachable call_obj stream_9
           registry_1); reflexivity.
Defined.

(** The [stopped] response to the duplicate subscription of [call_1]. *)
Lemma handleRequest_responses_carry_id_witness :
  Send (ResultResponse (JNumber (Num 1)) JUndefined ResultStopped)
  ∈ (handleRequest_resume call_1 (Resolved (Stream stream_9)) rs_open
       registry_1).2
  ∧ response_id (ResultResponse (JNumber (Num 1)) JUndefined ResultStopped)
    = call_id call_1.
Proof.
  assert (Hsent :
    Send (ResultResponse (JNumber (Num 1)) JUndefined ResultStopped)
    ∈ (handleRequest_resume call_1 (Resolved (Stream stream_9)) rs_open
         registry_1).2).
  { vm_compute. repeat constructor. }
  split; [exact Hsent|].
  exact (handleRequest_responses_carry_id call_1 (Resolved (Stream stream_9))
           rs_open registry_1 _ Hsent).
Defined.

(** The query of [call_2] resolving to a value. *)
Lemma one_shot_single_response_witness :
  handleRequest_resume call_2 (Resolved (Value (JString "hello"))) rs_open
    registry_1
  = (registry_1,
     [Send (ResultResponse (JNumber (Num 2)) JUndefined
              (ResultData (Value (JString "hello"))))]).
Proof.
  apply (one_shot_single_response call_2 (Resolved (Value (JString "hello")))
           registry_1).
  discriminate.
Defined.

(** A batch of a cancel envelope without an id and the one for id 1. *)
Lemma onMessage_members_without_id_witness :
  onMessage Ok (Ok (JArray [stop_null; stop_1])) registry_1
  = ([],
     [Unsubscribe 7;
      Send (ResultResponse (JNumber (Num 1)) JUndefined ResultStopped);
      Send (parse_error_response (Some "`id` is required"))],
     []).
Proof.
  pose proof (onMessage_members_without_id Ok (JArray [stop_null; stop_1])
                [StopMessage JNull JUndefined;
                 StopMessage (JNumber (Num 1)) JUndefined]
                registry_1 eq_refl) as Hframe.
  exact (proj2 Hframe).
Defined.

End HandlerFurtherScenarios.

Section LinkFurtherScenarios.

Import Link Wire Scenario.

(** Two requests on the idle client, then the timer. *)
Lemma request_burst_is_one_frame_witness :
  (run (requests burst ++ [EvTimeout all_open]) idle_0).2
  = [SetTimeout;
     Send 0 (ArrayFrame [request_envelope op_sub; request_envelope op_query])]
  ∧ outgoing (run (requests burst ++ [EvTimeout all_open]) idle_0).1 = []
  ∧ dispatchTimer (run (requests burst ++ [EvTimeout all_open]) idle_0).1
    = false.
Proof.
  apply (request_burst_is_one_frame all_open burst idle_0);
    try reflexivity.
  discriminate.
Defined.

(** Two requests on a connecting channel, then [open] and the timer. *)
Lemma requests_while_connecting_witness :
  (createDataChannelClient 0 rs_connecting).2 = [AddOpenListener 0]
  ∧ (run (requests burst) (createDataChannelClient 0 rs_connecting).1).2 = []
  ∧ (run (requests burst ++ [EvOpen; EvTimeout all_open])
       (createDataChannelClient 0 rs_connecting).1).2
    = [SetTimeout;
       Send 0 (ArrayFrame [request_envelope op_sub; request_envelope op_query])].
Proof.
  apply (requests_while_connecting 0 rs_connecting all_open burst).
  - discriminate.
  - reflexivity.
Defined.

(** The flush of the request of [op_sub]. *)
Lemma only_the_flush_sends_witness :
  Send 0 (ObjectFrame (request_envelope op_sub))
  ∈ (deliver (EvTimeout all_open) requested).2
  ∧ ∃ readyState,
      EvTimeout all_open = EvTimeout readyState
      ∧ readyState (activeConnection requested) = rs_open
      ∧ 0 = activeConnection requested
      ∧ ObjectFrame (request_envelope op_sub) = frame_of (outgoing requested).
Proof.
  assert (Hsent : Send 0 (ObjectFrame (request_envelope op_sub))
                  ∈ (deliver (EvTimeout all_open) requested).2).
  { vm_compute. repeat constructor. }
  split; [exact Hsent|].
  exact (only_the_flush_sends (EvTimeout all_open) requested 0
           (ObjectFrame (request_envelope op_sub)) Hsent).
Defined.

(** A [reconnect] request to the open client with nothing pending. *)
Lemma incoming_request_closes_or_ignores_witness :
  onMessage (IncomingRequest "reconnect") client_0 = (client_0, [Close 0]).
Proof.
  apply (incoming_request_closes_or_ignores "reconnect" client_0).
  reflexivity.
Defined.

(** The subscription of [op_sub] requested and cancelled at once. *)
Lemma request_cancelled_before_flush_witness :
  pendingRequests (unsub all_open op_sub (request op_sub 10 client_0).1).1
  = pendingRequests client_0
  ∧ outgoing (unsub all_open op_sub (request op_sub 10 client_0).1).1
    = [StopEnvelope (IdNumber 1)]
  ∧ filter (fun e => is_callback e = true)
      ((request op_sub 10 client_0).2
         ++ (unsub all_open op_sub (request op_sub 10 client_0).1).2)
    = [CallComplete 10].
Proof.
  apply (request_cancelled_before_flush all_open op_sub 10 client_0).
  - reflexivity.
  - constructor.
Defined.

End LinkFurtherScenarios.

Section LinkCallbackScenarios.

Import DataChannelLink.

(** The response to a query. *)
Lemma unsub_is_called_when_done_witness :
  Unsub ∈ (invoke query (OnNext (TransformOk JNull)) false).2
  ∧ (invoke query (OnNext (TransformOk JNull)) false).1 = true
  ∧ complete (invoke query (OnNext (TransformOk JNull)) false).1
    = (true, [ObserverComplete])
  ∧ ∀ cbs,
      filter (fun e => is_premature e = true)
        (invoke_all query cbs
           (invoke query (OnNext (TransformOk JNull)) false).1).2 = [].
Proof.
  assert (Hunsub : Unsub ∈ (invoke query (OnNext (TransformOk JNull)) false).2).
  { vm_compute. repeat constructor. }
  split; [exact Hunsub|].
  exact (unsub_is_called_when_done query (OnNext (TransformOk JNull)) false
           Hunsub).
Defined.

End LinkCallbackScenarios.

Section KeyScenarios.

Import Link Wire Scenario.

(** A subscription under the id [1] and then a query under the id ["1"]:
    the [started] response of the subscription reaches the callbacks of
    the query. *)
Lemma colliding_ids_share_one_entry_witness :
  outgoing (request op_query_1 11 (request op_sub 10 client_0).1).1
  = [request_envelope op_sub; request_envelope op_query_1]
  ∧ handleIncomingResponse
      (mkResponse (Some (IdNumber 1)) (WithResult ResultStarted))
      (request op_query_1 11 (request op_sub 10 client_0).1).1
    = ((request op_query_1 11 (request op_sub 10 client_0).1).1,
       [CallNext 11 (mkResponse (Some (IdNumber 1)) (WithResult ResultStarted))]).
Proof.
  destruct (proj2 (colliding_ids_share_one_entry op_sub op_query_1 10 11
                     (WithResult ResultStarted) client_0
                     eq_refl eq_refl eq_refl) eq_refl)
    as (Hqueue & _ & Hresponse).
  split; [exact Hqueue | exact Hresponse].
Defined.

End KeyScenarios.
